(** * Cardioception: the heart-rate-discrimination task parameters and the
      convergence summary, embedded in Rocq.

    Sources embedded here:
    - [cardioception/HeartRateDiscrimination/parameters.py]       ([getParameters])
    - [cardioception/HeartRateDiscrimination/fMRI/parameters.py]  ([getParameters])
    - [cardioception/plotting.py]                                 ([hrd_convergence])

    Python values are modelled as follows: [int] as [Z], [float] as a rational
    (rounding error is not modelled) extended with the IEEE specials where the
    code can produce them, [str] as [string], one-dimensional NumPy arrays as
    lists, objects as cells of a heap, and the hidden state of [np.random] as
    an explicit component of the world that every call threads through. *)

From Stdlib Require Import ZArith QArith Qround Qabs Lqa String.
From stdpp Require Import base option list gmap strings.

Local Open Scope string_scope.

(** ** Python and NumPy primitives used by the sources *)

(** A [float64]: a rational, an infinity or NaN. Signed zeros are not
    distinguished. *)
Inductive float := Fin (q : Q) | PInf | NInf | NaN.

Module Py.

(** [a / b] on two [int]s: true division. *)
Definition truediv (a b : Z) : Q := (inject_Z a / inject_Z b)%Q.

(** [round(x)] with one argument: the nearest integer, halves going to the
    even neighbour. *)
Definition round (x : Q) : Z :=
  let f := Qfloor x in
  match Qcompare (x - inject_Z f) (1 # 2) with
  | Lt => f
  | Gt => (f + 1)%Z
  | Eq => if Z.even f then f else (f + 1)%Z
  end.

(** [[x] * k]: [k] copies of [x]; no copies when [k <= 0]. *)
Definition repeat {A} (x : A) (k : Z) : list A := replicate (Z.to_nat k) x.

(** Exceptions. [ValueError] and [IndexError] are Python's own; the last two
    are the error classes of the specification's staircase engine. *)
Inductive exn :=
| ValueError (msg : string)
| IndexError
| ConfigurationError
| NumericalDegeneracyError.

Inductive result (A : Type) :=
| Ok (a : A)
| Raise (e : exn).
Global Arguments Ok {A} a.
Global Arguments Raise {A} e.

(** The values that an attribute can be read from: a float, a bool, or an
    object with named attributes. *)
#[warnings="-register-all"]
Inductive value :=
| Float (x : float)
| Bool (b : bool)
| Object (attributes : list (string * value)).

(** [getattr(v, name)]; [None] stands for Python's [AttributeError]. *)
Definition getattr (v : value) (name : string) : option value :=
  match v with
  | Object attributes =>
      snd <$> List.find (λ a, String.eqb (fst a) name) attributes
  | _ => None
  end.

End Py.
Export Py (exn(..), result(..)).

Module Np.

(** [np.hstack] of one-dimensional arrays. *)
Definition hstack {A} (arrays : list (list A)) : list A := concat arrays.

(** [np.tile(a, reps)] of a one-dimensional array. *)
Definition tile {A} (a : list A) (reps : nat) : list A := concat (replicate reps a).

(** [np.arange(0, n)]. *)
Definition arange (n : nat) : list nat := seq 0 n.

(** [a[idx]] for an integer index array: every index is bounds-checked and
    one index out of range raises [IndexError]. *)
Definition take {A} (a : list A) (idx : list nat) : result (list A) :=
  match mapM (λ i, a !! i) idx with
  | Some r => Ok r
  | None => Raise IndexError
  end.

(** The state of the process-wide generator behind [np.random]: the
    sequence of raw draws it is still going to produce. *)
Definition RandomState := nat → nat.

(** [rk_interval(max, state)]: a draw in [0, max], and the advanced state. *)
Definition rk_interval (max : nat) (s : RandomState) : nat * RandomState :=
  (s 0 mod S max, λ n, s (S n)).

(** [x[i], x[j] = x[j], x[i]]. *)
Definition swap {A} (x : list A) (i j : nat) : list A :=
  match x !! i, x !! j with
  | Some xi, Some xj => <[j := xi]> (<[i := xj]> x)
  | _, _ => x
  end.

(** The loop of [RandomState.shuffle]:
    [for i in reversed(range(1, n)): j = rk_interval(i); swap x[i], x[j]].
    The argument [i] is the largest index still to be visited. *)
Fixpoint shuffle_raw {A} (i : nat) (x : list A) (s : RandomState)
  : list A * RandomState :=
  match i with
  | O => (x, s)
  | S i' => let '(j, s') := rk_interval i s in shuffle_raw i' (swap x i j) s'
  end.

(** [np.random.shuffle(x)], in place on [x] and on the generator. *)
Definition shuffle {A} (x : list A) (s : RandomState) : list A * RandomState :=
  shuffle_raw (length x - 1) x s.

End Np.

(** [len(a[a == label])]: how often a label occurs. *)
Definition count (label : string) (a : list string) : nat :=
  length (filter (λ x, x = label) a).

(** Lines 48-50 of [parameters.py] and 129-131 of [fMRI/parameters.py]:
    [np.hstack([np.array(['More'] * round(nTrials/2)),
                np.array(['Less'] * round(nTrials/2))])]. *)
Definition conditions_vector (nTrials : Z) : list string :=
  Np.hstack [ Py.repeat "More" (Py.round (Py.truediv nTrials 2));
              Py.repeat "Less" (Py.round (Py.truediv nTrials 2)) ].


(** ** The staircase objects that [getParameters] creates

    [data.StairHandler], [data.PsiHandler] and [data.MultiStairHandler] are
    PsychoPy classes; the sources under study only call their constructors.
    An object keeps the constructor's arguments and the state that the
    specification gives the procedure. *)

Inductive Direction := Up | Down.

(** Modelled from the spec: the state of an up-down staircase (section 3,
    "StaircaseState (Up-Down variant)"); the handler's own code belongs to
    PsychoPy and is not part of the sources. *)
Record StaircaseState := {
  current_intensity : Q;
  step_index : nat;
  step_sizes : list Q;
  direction : option Direction;
  consecutive_same_direction : nat;
  n_reversals : nat;
  history : list (Q * bool) }.

Record StairHandler := {
  startVal : Q;
  sh_nTrials : Z;
  nUp : nat;
  nDown : nat;
  stepSizes : list Q;
  sh_stepType : string;
  minVal : Q;
  maxVal : Q;
  sh_state : StaircaseState }.

(** Modelled from the spec: the state of a Psi staircase (section 3,
    "StaircaseState (Psi variant)"): the posterior is a grid with one row per
    threshold value and one column per slope value. *)
Record PsiState := {
  posterior : list (list Q);
  intensity_range : Q * Q;
  psi_history : list (Q * bool) }.

Record PsiHandler := {
  psi_nTrials : Z;
  intensRange : Q * Q;
  alphaRange : Q * Q;
  betaRange : Q * Q;
  intensPrecision : Q;
  alphaPrecision : Q;
  betaPrecision : Q;
  delta : Q;
  psi_stepType : string;
  expectedMin : Q;
  psi_state : PsiState }.

(** One entry of the [conditions] list given to [data.MultiStairHandler]. *)
Record StairCondition := {
  c_label : string;
  c_startVal : Q;
  c_nUp : nat;
  c_nDown : nat;
  c_stepSizes : list Q;
  c_stepType : string;
  c_minVal : Q;
  c_maxVal : Q }.

Record MultiStairHandler := {
  conditions : list StairCondition;
  ms_nTrials : Z;
  staircases : list (string * StairHandler) }.

Inductive Handler :=
| HStair (h : StairHandler)
| HPsi (h : PsiHandler)
| HMulti (h : MultiStairHandler).

(** The points [lo, lo + prec, lo + 2 prec, ...] of a range that do not
    exceed [hi]. *)
Definition grid_axis (range : Q * Q) (prec : Q) : list Q :=
  let '(lo, hi) := range in
  (λ k, lo + inject_Z k * prec)%Q <$> seqZ 0 (Qfloor ((hi - lo) / prec) + 1).

(** Modelled from the spec: "initialized to a uniform distribution over the
    grid" (section 4.3). *)
Definition uniform_grid (rows cols : nat) : list (list Q) :=
  replicate rows (replicate cols (1 / inject_Z (Z.of_nat (rows * cols)))%Q).

Definition new_StairHandler (startVal : Q) (nTrials : Z) (nUp nDown : nat)
    (stepSizes : list Q) (stepType : string) (minVal maxVal : Q) : StairHandler :=
  {| startVal := startVal; sh_nTrials := nTrials; nUp := nUp; nDown := nDown;
     stepSizes := stepSizes; sh_stepType := stepType;
     minVal := minVal; maxVal := maxVal;
     sh_state := {| current_intensity := startVal; step_index := 0;
                    step_sizes := stepSizes; direction := None;
                    consecutive_same_direction := 0; n_reversals := 0;
                    history := [] |} |}.

Definition new_PsiHandler (nTrials : Z) (intensRange alphaRange betaRange : Q * Q)
    (intensPrecision alphaPrecision betaPrecision delta : Q)
    (stepType : string) (expectedMin : Q) : PsiHandler :=
  {| psi_nTrials := nTrials; intensRange := intensRange;
     alphaRange := alphaRange; betaRange := betaRange;
     intensPrecision := intensPrecision; alphaPrecision := alphaPrecision;
     betaPrecision := betaPrecision; delta := delta;
     psi_stepType := stepType; expectedMin := expectedMin;
     psi_state := {| posterior :=
                       uniform_grid (length (grid_axis alphaRange alphaPrecision))
                                    (length (grid_axis betaRange betaPrecision));
                     intensity_range := intensRange;
                     psi_history := [] |} |}.

Definition new_MultiStairHandler (conditions : list StairCondition) (nTrials : Z)
  : MultiStairHandler :=
  {| conditions := conditions; ms_nTrials := nTrials;
     staircases :=
       (λ c, (c_label c,
              new_StairHandler (c_startVal c) nTrials (c_nUp c) (c_nDown c)
                (c_stepSizes c) (c_stepType c) (c_minVal c) (c_maxVal c)))
       <$> conditions |}.

(** ** The world the functions run in, and the monad that threads it *)

Abbreviation loc := positive.

Record World := {
  np_random : Np.RandomState;       (* the hidden state of [np.random] *)
  heap : gmap loc Handler }.        (* the staircase objects alive *)

Definition M (A : Type) : Type := World → result A * World.

Definition ret {A} (a : A) : M A := λ w, (Ok a, w).

Definition raise {A} (e : exn) : M A := λ w, (Raise e, w).

Definition bind {A B} (m : M A) (k : A → M B) : M B :=
  λ w, match m w with
       | (Ok a, w') => k a w'
       | (Raise e, w') => (Raise e, w')
       end.

Notation "'let*' x ':=' m 'in' k" := (bind m (λ x, k))
  (at level 10, x name, m at level 100, k at level 200).
Notation "'let*' ' pat ':=' m 'in' k" :=
  (bind m (λ x, match x with pat => k end))
  (at level 10, pat pattern, m at level 100, k at level 200).

(** An operation that may raise but touches no state. *)
Definition lift {A} (r : result A) : M A := λ w, (r, w).

(** [np.random.shuffle(x)] on the process-wide generator. *)
Definition np_random_shuffle {A} (x : list A) : M (list A) :=
  λ w, let '(x', s') := Np.shuffle x (np_random w) in
       (Ok x', {| np_random := s'; heap := heap w |}).

(** A constructor call: the new object gets an address no live object has. *)
Definition new (h : Handler) : M loc :=
  λ w, let l := fresh (dom (heap w)) in
       (Ok l, {| np_random := np_random w; heap := <[l := h]> (heap w) |}).

(** A Python list of number literals. *)
Definition floats (l : list Z) : list Q := inject_Z <$> l.

(** ** [HeartRateDiscrimination/parameters.py] *)

Module HeartRateDiscrimination.

(** The entries of the [parameters] dictionary that the randomizer and the
    staircase fill in. The entries for the screen, the serial port, the
    texts and the images are presentation plumbing and are left out. *)
Record Parameters := {
  nTrials : Z;
  Conditions : list string;
  stairCase : loc;
  subject : string }.

(** [getParameters(subject)], with the trial count that line 44 fixes taken
    as an argument. *)
Definition getParameters_with (nTrials : Z) (subject : string) : M Parameters :=
  let Conditions := conditions_vector nTrials in
  let* Conditions := np_random_shuffle Conditions in
  let* stairCase :=
    new (HStair (new_StairHandler 30 nTrials 1 2
                   (floats [20; 12; 7; 4; 3; 2; 1]%Z) "lin" 1 100)) in
  ret {| nTrials := nTrials; Conditions := Conditions;
         stairCase := stairCase; subject := subject |}.

(** Line 44: ['nTrials': 50]. *)
Definition getParameters : string → M Parameters := getParameters_with 50.

End HeartRateDiscrimination.

(** ** [HeartRateDiscrimination/fMRI/parameters.py] *)

Module fMRI.

(** What [parameters['stairCase']] holds: one handler, or a dictionary from
    condition label to handler. *)
Inductive StairCase :=
| Single (l : loc)
| Labelled (d : gmap string loc).

Record Parameters := {
  nTrials : Z;
  nStaircase : Z;
  stairType : string;
  Conditions : list string;
  Modality : list string;
  stairCase : option StairCase;          (* [None]: the key was never set *)
  exteroStairCase : option StairCase;
  subject : string;
  subjectNumber : Z }.

(** Lines 128-140: the two label vectors before they are shuffled. *)
Definition label_vectors (nTrials : Z) (exteroception : bool)
  : list string * list string :=
  let Conditions := conditions_vector nTrials in
  if exteroception then
    (Np.tile Conditions 2,
     Np.hstack [Py.repeat "Extero" nTrials; Py.repeat "Intero" nTrials])
  else
    (Conditions, Py.repeat "Intero" nTrials).

(** Lines 128-145: the condition and modality vectors, indexed by one
    shuffled index array. *)
Definition condition_plan (nTrials : Z) (exteroception : bool)
  : M (list string * list string) :=
  let '(Conditions, Modality) := label_vectors nTrials exteroception in
  let rand := Np.arange (length Modality) in
  let* rand := np_random_shuffle rand in
  let* Modality := lift (Np.take Modality rand) in
  let* Conditions := lift (Np.take Conditions rand) in
  ret (Conditions, Modality).

Definition updown_conditions : list StairCondition :=
  [ {| c_label := "low"; c_startVal := 5; c_nUp := 1; c_nDown := 2;
       c_stepSizes := floats [20; 12; 12; 7; 4; 3; 2; 1]%Z;
       c_stepType := "lin"; c_minVal := 1; c_maxVal := 100 |};
    {| c_label := "high"; c_startVal := 40; c_nUp := 1; c_nDown := 2;
       c_stepSizes := floats [20; 12; 12; 7; 4; 3; 2; 1]%Z;
       c_stepType := "lin"; c_minVal := 1; c_maxVal := 100 |} ].

(** The three handler configurations that both staircase blocks use. *)
Definition single_updown (nTrials : Z) : Handler :=
  HStair (new_StairHandler 40 nTrials 1 2
            (floats [20; 12; 12; 7; 4; 3; 2; 1]%Z) "lin" 1 100).

Definition single_psi (nTrials : Z) : Handler :=
  HPsi (new_PsiHandler nTrials (1, 40) (1, 20) (1 # 10, 4) 1 1 (1 # 100)
          (1 # 10) "lin" (1 # 2))%Q.

Definition psi_Less (nTrials : Z) : Handler :=
  HPsi (new_PsiHandler nTrials (- 40, - 1) (- 20, 1) (1 # 10, 4) 1 (1 # 2)
          (1 # 10) (1 # 10) "lin" (1 # 2))%Q.

Definition psi_More (nTrials : Z) : Handler :=
  HPsi (new_PsiHandler nTrials (1, 40) (1, 20) (1 # 10, 4) 1 (1 # 2)
          (1 # 10) (1 # 10) "lin" (1 # 2))%Q.

(** The body shared by the [nStaircase == 1] and [nStaircase == 2] branches
    of lines 154-194 and of lines 201-241. *)
Definition one_staircase (nTrials : Z) (stairType : string) : M (option StairCase) :=
  if String.eqb stairType "UpDown" then
    let* l := new (single_updown nTrials) in ret (Some (Single l))
  else if String.eqb stairType "psi" then
    let* l := new (single_psi nTrials) in ret (Some (Single l))
  else ret None.

Definition two_staircases (nTrials : Z) (stairType : string) : M (option StairCase) :=
  if String.eqb stairType "UpDown" then
    let* l := new (HMulti (new_MultiStairHandler updown_conditions nTrials)) in
    ret (Some (Single l))
  else if String.eqb stairType "psi" then
    let d : gmap string loc := ∅ in
    let* less := new (psi_Less nTrials) in
    let d := <["Less" := less]> d in
    let* more := new (psi_More nTrials) in
    let d := <["More" := more]> d in
    ret (Some (Labelled d))
  else ret None.

(** Lines 154-197. *)
Definition configure_stairCase (nTrials nStaircase : Z) (stairType : string)
  : M (option StairCase) :=
  if (nStaircase =? 1)%Z then one_staircase nTrials stairType
  else if (nStaircase =? 2)%Z then two_staircases nTrials stairType
  else raise (ValueError "Invalid number of Staircase").

(** Lines 199-241. *)
Definition configure_exteroStairCase (nTrials nStaircase : Z)
    (exteroception : bool) (stairType : string) : M (option StairCase) :=
  if exteroception then
    if (nStaircase =? 1)%Z then one_staircase nTrials stairType
    else if (nStaircase =? 2)%Z then two_staircases nTrials stairType
    else ret None
  else ret None.

(** [getParameters(subjectID, subjectNumber, nStaircase, exteroception,
    stairType)], with the trial count that line 121 fixes taken as an
    argument. *)
Definition getParameters_with (nTrials : Z) (subjectID : string)
    (subjectNumber : Z) (nStaircase : Z) (exteroception : bool)
    (stairType : string) : M Parameters :=
  let* '(Conditions, Modality) := condition_plan nTrials exteroception in
  let* stairCase := configure_stairCase nTrials nStaircase stairType in
  let* exteroStairCase :=
    configure_exteroStairCase nTrials nStaircase exteroception stairType in
  ret {| nTrials := nTrials; nStaircase := nStaircase; stairType := stairType;
         Conditions := Conditions; Modality := Modality;
         stairCase := stairCase; exteroStairCase := exteroStairCase;
         subject := subjectID; subjectNumber := subjectNumber |}.

(** Line 121: [parameters['nTrials'] = 10]. *)
Definition getParameters : string → Z → Z → bool → string → M Parameters :=
  getParameters_with 10.

End fMRI.

(** ** The up-down staircase *)

Module UpDownStaircase.

(** The up-down procedure is PsychoPy's [StairHandler]; the sources only
    configure it, so its operations follow section 4.2 of the
    specification. *)

(** Modelled from the spec: "intensity is clamped to [[minVal, maxVal]] after
    every move" (the handler's code is missing). *)
Definition clamp (lo hi x : Q) : Q :=
  if Qlt_le_dec x lo then lo else if Qlt_le_dec hi x then hi else x.

(** Modelled from the spec: a reversal is "a move in the opposite direction
    from the previous move" (no handler code to read it from). *)
Definition opposite (d d' : Direction) : bool :=
  match d, d' with
  | Up, Down | Down, Up => true
  | _, _ => false
  end.

(** Modelled from the spec: [next_intensity()], "a pure read of the current
    state" (the handler's code is missing). *)
Definition next_intensity (h : StairHandler) : Q :=
  current_intensity (sh_state h).

(** Modelled from the spec: one move of the staircase, which the missing
    handler code would make. The step is [step_sizes[step_index]] and the
    result is clamped. A move against the previous move is a reversal: it is
    counted, and it advances [step_index], capped at the last index, for the
    moves that follow (the example of section 8 moves back up by the same 20).
    A move ends the run of equal responses. *)
Definition move (h : StairHandler) (d : Direction) (s : StaircaseState)
  : StaircaseState :=
  let step := default 0%Q (step_sizes s !! step_index s) in
  let target := match d with
                | Down => (current_intensity s - step)%Q
                | Up => (current_intensity s + step)%Q
                end in
  let reversal := match direction s with
                  | Some d' => opposite d d'
                  | None => false       (* the first move has no prior direction *)
                  end in
  {| current_intensity := clamp (minVal h) (maxVal h) target;
     step_index := if reversal
                   then Nat.min (S (step_index s)) (length (step_sizes s) - 1)
                   else step_index s;
     step_sizes := step_sizes s;
     direction := Some d;
     consecutive_same_direction := 0;
     n_reversals := if reversal then S (n_reversals s) else n_reversals s;
     history := history s |}.

(** Modelled from the spec: [update(was_correct)] of the missing handler. A
    response extends the run of equal responses or starts a new one; a run of
    [nDown] correct responses moves the intensity down, a run of [nUp]
    incorrect ones moves it up, and any other response leaves it. *)
Definition update (h : StairHandler) (was_correct : bool) : StairHandler :=
  let s := sh_state h in
  let run := match last (history s) with
             | Some (_, previous) =>
                 if Bool.eqb previous was_correct
                 then S (consecutive_same_direction s) else 1
             | None => 1
             end in
  let s := {| current_intensity := current_intensity s;
              step_index := step_index s;
              step_sizes := step_sizes s;
              direction := direction s;
              consecutive_same_direction := run;
              n_reversals := n_reversals s;
              history := history s ++ [(current_intensity s, was_correct)] |} in
  let s := if was_correct
           then if (nDown h <=? run)%nat then move h Down s else s
           else if (nUp h <=? run)%nat then move h Up s else s in
  {| startVal := startVal h; sh_nTrials := sh_nTrials h; nUp := nUp h;
     nDown := nDown h; stepSizes := stepSizes h; sh_stepType := sh_stepType h;
     minVal := minVal h; maxVal := maxVal h; sh_state := s |}.

(** The handler after a script of responses. *)
Definition run (h : StairHandler) (responses : list bool) : StairHandler :=
  foldl update h responses.

End UpDownStaircase.

(** ** The Psi staircase *)

(** The two real-valued ingredients of the Psi method that have no rational
    closed form: the psychometric function
    [P(correct | intensity, alpha, beta)] for a guess rate [expectedMin] and a
    lapse rate [delta], and the entropy of a grid. *)
Class PsiFunctions := {
  psychometric : ∀ (expectedMin delta intensity alpha beta : Q), Q;
  entropy : list (list Q) → Q }.

Module PsiStaircase.
Section defs.
Context `{PsiFunctions}.

(** The Bayesian procedure is PsychoPy's [PsiHandler]; the sources only
    configure it, so its operations follow section 4.3 of the
    specification. *)

Definition alphas (h : PsiHandler) : list Q := grid_axis (alphaRange h) (alphaPrecision h).
Definition betas (h : PsiHandler) : list Q := grid_axis (betaRange h) (betaPrecision h).
Definition intensities (h : PsiHandler) : list Q := grid_axis (intensRange h) (intensPrecision h).

Definition grid_sum (g : list (list Q)) : Q := foldr Qplus 0%Q (concat g).

(** Modelled from the spec: [P(correct | intensity, alpha, beta)], "or its
    complement if incorrect", at every grid point (the handler's code is
    missing). *)
Definition likelihood (h : PsiHandler) (intensity : Q) (was_correct : bool)
  : list (list Q) :=
  (λ a, (λ b, let p := psychometric (expectedMin h) (delta h) intensity a b in
              if was_correct then p else (1 - p)%Q) <$> betas h) <$> alphas h.

(** Modelled from the spec: "multiply the current posterior pointwise" (the
    handler's code is missing). *)
Definition pointwise (g1 g2 : list (list Q)) : list (list Q) :=
  zip_with (zip_with Qmult) g1 g2.

(** Modelled from the spec: "renormalize so the grid sums to 1" (the handler's
    code is missing). *)
Definition renormalize (mass : Q) (g : list (list Q)) : list (list Q) :=
  (λ row : list Q, (λ p, p / mass)%Q <$> row) <$> g.

Definition with_state (h : PsiHandler) (s : PsiState) : PsiHandler :=
  {| psi_nTrials := psi_nTrials h; intensRange := intensRange h;
     alphaRange := alphaRange h; betaRange := betaRange h;
     intensPrecision := intensPrecision h; alphaPrecision := alphaPrecision h;
     betaPrecision := betaPrecision h; delta := delta h;
     psi_stepType := psi_stepType h; expectedMin := expectedMin h;
     psi_state := s |}.

(** Modelled from the spec: [update(was_correct)] of the missing handler, at
    the intensity that was presented: Bayes' rule, then renormalization; a
    total mass of zero is a [NumericalDegeneracyError]. *)
Definition update_at (h : PsiHandler) (intensity : Q) (was_correct : bool)
  : result PsiHandler :=
  let s := psi_state h in
  let g := pointwise (posterior s) (likelihood h intensity was_correct) in
  let mass := grid_sum g in
  if Qeq_bool mass 0 then Raise NumericalDegeneracyError
  else Ok (with_state h
             {| posterior := renormalize mass g;
                intensity_range := intensity_range s;
                psi_history := psi_history s ++ [(intensity, was_correct)] |}).

(** Modelled from the spec: the expected posterior entropy after a
    hypothetical correct and incorrect response at [intensity], weighted by
    their predictive probabilities (the handler's code is missing). *)
Definition expected_entropy (h : PsiHandler) (intensity : Q) : Q :=
  let after r :=
    let g := pointwise (posterior (psi_state h)) (likelihood h intensity r) in
    (grid_sum g, entropy (renormalize (grid_sum g) g)) in
  (fst (after true) * snd (after true)
   + fst (after false) * snd (after false))%Q.

(** Modelled from the spec: "ties broken by the first minimal-entropy
    intensity in ascending grid order" (the handler's code is missing). *)
Fixpoint argmin (score : Q → Q) (best : Q) (candidates : list Q) : Q :=
  match candidates with
  | [] => best
  | x :: rest =>
      argmin score (if Qlt_le_dec (score x) (score best) then x else best) rest
  end.

(** Modelled from the spec: [next_intensity()] of the missing handler, the
    grid intensity of least expected entropy. *)
Definition next_intensity (h : PsiHandler) : Q :=
  match intensities h with
  | [] => fst (intensRange h)
  | x :: rest => argmin (expected_entropy h) x rest
  end.

(** Modelled from the spec: [update(was_correct)] of the missing handler,
    for a trial presented at the intensity that the handler proposed. *)
Definition update (h : PsiHandler) (was_correct : bool) : result PsiHandler :=
  update_at h (next_intensity h) was_correct.

(** The handlers that a fresh handler can turn into. *)
Inductive reachable (h0 : PsiHandler) : PsiHandler → Prop :=
| reachable_new : reachable h0 h0
| reachable_update h intensity was_correct h' :
    reachable h0 h →
    update_at h intensity was_correct = Ok h' →
    reachable h0 h'.

End defs.
End PsiStaircase.

(** ** The staircase manager *)

Module StaircaseManager.
Section defs.
Context `{PsiFunctions}.

(** The manager is the part of the task script that routes trials to
    staircases; the script is not among the sources, so the manager follows
    section 4.4 of the specification. It owns a mapping from condition label
    to staircase; the staircases are the objects that [getParameters]
    created, so the mapping holds their addresses. *)

(** Modelled from the spec: the routing by condition label of the missing
    task script; "fails with [ConfigurationError] if asked to operate on a
    condition label with no registered staircase". *)
Definition lookup_staircase (staircases : gmap string loc) (condition : string)
  : M (loc * Handler) :=
  λ w, match staircases !! condition with
       | Some l => match heap w !! l with
                   | Some h => (Ok (l, h), w)
                   | None => (Raise ConfigurationError, w)
                   end
       | None => (Raise ConfigurationError, w)
       end.

(** The write-back of an object that was updated in place. *)
Definition store (l : loc) (h : Handler) : M () :=
  λ w, (Ok (), {| np_random := np_random w; heap := <[l := h]> (heap w) |}).

(** Modelled from the spec: [select_intensity(condition)] of the missing
    task script. *)
Definition select_intensity (staircases : gmap string loc) (condition : string)
  : M Q :=
  let* '(_, h) := lookup_staircase staircases condition in
  match h with
  | HStair h => ret (UpDownStaircase.next_intensity h)
  | HPsi h => ret (PsiStaircase.next_intensity h)
  | HMulti _ => raise ConfigurationError
  end.

(** Modelled from the spec: [report_outcome(condition, was_correct)] of the
    missing task script; the staircase of the label is updated in place. *)
Definition report_outcome (staircases : gmap string loc) (condition : string)
    (was_correct : bool) : M () :=
  let* '(l, h) := lookup_staircase staircases condition in
  match h with
  | HStair h => store l (HStair (UpDownStaircase.update h was_correct))
  | HPsi h => let* h' := lift (PsiStaircase.update h was_correct) in
              store l (HPsi h')
  | HMulti _ => raise ConfigurationError
  end.

(** A script of outcomes, all reported for one condition; an outcome that
    raises is dropped and the script goes on. *)
Fixpoint report_outcomes (staircases : gmap string loc) (condition : string)
    (script : list bool) (w : World) : World :=
  match script with
  | [] => w
  | r :: script =>
      report_outcomes staircases condition script
        (report_outcome staircases condition r w).2
  end.

End defs.
End StaircaseManager.

(** ** [plotting.py]: the convergence line *)

Module Float.

Definition is_nan (x : float) : bool :=
  match x with NaN => true | _ => false end.

Definition neg (x : float) : float :=
  match x with
  | Fin q => Fin (- q)
  | PInf => NInf
  | NInf => PInf
  | NaN => NaN
  end.

Definition add (x y : float) : float :=
  match x, y with
  | NaN, _ | _, NaN => NaN
  | PInf, NInf | NInf, PInf => NaN
  | PInf, _ | _, PInf => PInf
  | NInf, _ | _, NInf => NInf
  | Fin a, Fin b => Fin (a + b)
  end.

Definition sub (x y : float) : float := add x (neg y).

Definition abs (x : float) : float :=
  match x with
  | Fin q => Fin (Qabs q)
  | PInf | NInf => PInf
  | NaN => NaN
  end.

(** The sign of a finite value: [Lt], [Eq] or [Gt] as it is below, at or
    above zero. *)
Definition sign (q : Q) : comparison := Qcompare q 0.

(** NumPy's division: a division by zero gives an infinity, or NaN for
    [0 / 0]. *)
Definition div (x y : float) : float :=
  match x, y with
  | NaN, _ | _, NaN => NaN
  | Fin a, Fin b =>
      match sign b with
      | Eq => match sign a with Eq => NaN | Gt => PInf | Lt => NInf end
      | _ => Fin (a / b)
      end
  | Fin _, (PInf | NInf) => Fin 0
  | (PInf | NInf), (PInf | NInf) => NaN
  | PInf, Fin b => match sign b with Lt => NInf | _ => PInf end
  | NInf, Fin b => match sign b with Lt => PInf | _ => NInf end
  end.

(** [x <= y]; false when either side is NaN. *)
Definition leb (x y : float) : bool :=
  match x, y with
  | NaN, _ | _, NaN => false
  | NInf, _ | _, PInf => true
  | PInf, _ | _, NInf => false
  | Fin a, Fin b => Qle_bool a b
  end.

(** [x > y]; false when either side is NaN. *)
Definition gtb (x y : float) : bool :=
  match x, y with
  | NaN, _ | _, NaN => false
  | _, _ => negb (leb x y)
  end.

(** [x == y]; false when either side is NaN. *)
Definition eqb (x y : float) : bool := leb x y && leb y x.

End Float.

Module Np_stats.

Fixpoint insert (x : float) (sorted : list float) : list float :=
  match sorted with
  | [] => [x]
  | y :: rest => if Float.leb x y then x :: sorted else y :: insert x rest
  end.

Definition sort (a : list float) : list float := foldr insert [] a.

(** [np.median(a)] of a one-dimensional array: NaN for an empty array and
    for one that holds a NaN; otherwise the middle value of the sorted
    array, or the mean of its two middle values. *)
Definition median (a : list float) : float :=
  match a with
  | [] => NaN
  | _ =>
      if existsb Float.is_nan a then NaN
      else
        let s := sort a in
        let n := length a in
        if Nat.even n
        then Float.div (Float.add (default NaN (s !! (n / 2 - 1)))
                                  (default NaN (s !! (n / 2))))
                       (Fin 2)
        else default NaN (s !! (n / 2))
  end.

(** [a[mask]] for a boolean mask as long as [a]. *)
Definition select {A} (a : list A) (mask : list bool) : list A :=
  fst <$> filter (λ xm, xm.2 = true) (zip a mask).

End Np_stats.

(** [pingouin] is a library; its two functions are written out as its
    documentation gives them. *)
Module Pingouin.

(** [scipy.stats.norm.ppf(3 / 4.)], to fifteen places. *)
Definition c : Q := 674489750196082 # 1000000000000000.

(** [np.sqrt(scipy.stats.chi2.ppf(0.975, 1))], to fifteen places. *)
Definition k : Q := 2241402727604946 # 1000000000000000.

(** [mad(a)]: [np.median(np.abs(a - np.median(a)) / c)]. *)
Definition mad (a : list float) : float :=
  let center := Np_stats.median a in
  Np_stats.median ((λ x, Float.div (Float.abs (Float.sub x center)) (Fin c)) <$> a).

(** [madmedianrule(a)]: [(np.fabs(a - np.median(a)) / mad(a)) > k]. *)
Definition madmedianrule (a : list float) : list bool :=
  (λ x, Float.gtb (Float.div (Float.abs (Float.sub x (Np_stats.median a))) (mad a))
                  (Fin k)) <$> a.

End Pingouin.

Module Plotting.

(** One row of the results table written by the task. *)
Record Row := {
  nTrials : Z;
  Alpha : float;
  Accuracy : float;
  HR : float }.

(** A [pandas.DataFrame]: its rows in order. A column is the projection of
    every row. *)
Definition DataFrame := list Row.

(** Line 118: [np.abs(results_df.Alpha[results_df.Accuracy == 0])]. *)
Definition revers (results_df : DataFrame) : list float :=
  Float.abs <$>
    Np_stats.select (Alpha <$> results_df)
                    ((λ r, Float.eqb (Accuracy r) (Fin 0)) <$> results_df).

(** Lines 118-119 of [hrd_convergence]: the value [conv] that the function
    draws as a line and prints in the figure. The figure itself is outside
    the embedding. *)
Definition hrd_convergence (results_df : DataFrame) : float :=
  let revers := revers results_df in
  Np_stats.median (Np_stats.select revers (negb <$> Pingouin.madmedianrule revers)).

(** [conv] as the Python value it is: a NumPy floating-point scalar. *)
Definition conv (results_df : DataFrame) : Py.value :=
  Py.Float (hrd_convergence results_df).

End Plotting.

(** The convergence estimator as the specification words it (section 4.5),
    over a history of [(trial_index, intensity_offset, accuracy)] triples. *)
Module ConvergenceEstimator.

Definition Trial : Type := Z * float * float.

Definition accuracy (t : Trial) : float := t.2.





End ConvergenceEstimator.

(** ** Vocabulary of the statements below *)

(** What a call hands back, if it returns. *)
Definition returned {A} (r : result A * World) : option A :=
  match r.1 with Ok a => Some a | Raise _ => None end.

(** The plan that a call of the fMRI [getParameters] hands back. *)
Definition plan_of (r : result fMRI.Parameters * World)
  : option (list string * list string) :=
  (λ p, (fMRI.Conditions p, fMRI.Modality p)) <$> returned r.

(** An empty heap and the generator that draws 1, 4, 7, 10, ... *)
Definition w0 : World := {| np_random := λ n, 3 * n + 1; heap := ∅ |}.

(** The generator of [w0] next to a heap with one object already alive. *)
Definition w0_busy : World :=
  {| np_random := np_random w0; heap := {[ 1%positive := fMRI.single_updown 10 ]} |}.

(** The staircase that lines 156-160 configure. *)
Definition configured_updown : StairHandler :=
  new_StairHandler 40 10 1 2 (floats [20; 12; 12; 7; 4; 3; 2; 1]%Z) "lin" 1 100.

(** The intensity of an up-down staircase lies in its range. *)
Definition within_bounds (h : StairHandler) : Prop :=
  (minVal h <= UpDownStaircase.next_intensity h)%Q ∧
  (UpDownStaircase.next_intensity h <= maxVal h)%Q.

Definition Qsum (l : list Q) : Q := foldr Qplus 0%Q l.

(** A grid of the given shape whose entries are all positive. *)
Definition positive_grid (rows cols : nat) (g : list (list Q)) : Prop :=
  length g = rows ∧ Forall (λ row, length row = cols ∧ Forall (λ p, 0 < p)%Q row) g.

(** What every handler reachable from a fresh handler [h0] satisfies: it is
    [h0] with another state, whose posterior is positive and sums to one. *)
Definition normalized (h0 h : PsiHandler) : Prop :=
  h = PsiStaircase.with_state h0 (psi_state h) ∧
  positive_grid (length (PsiStaircase.alphas h0)) (length (PsiStaircase.betas h0))
                (posterior (psi_state h)) ∧
  (PsiStaircase.grid_sum (posterior (psi_state h)) == 1)%Q.

(** A registry that sends different labels to different objects. *)
Definition separate (staircases : gmap string loc) : Prop :=
  ∀ c c' l l', c ≠ c' → staircases !! c = Some l → staircases !! c' = Some l' → l ≠ l'.

(** One instance of the two functions of the Psi method, with rational
    values: a step for the sigmoid and the Gini impurity for the entropy. *)
Definition step_functions : PsiFunctions :=
  {| psychometric := λ expectedMin delta intensity alpha beta,
       if Qle_bool (beta * (intensity - alpha)) 0
       then (expectedMin + (1 - expectedMin - delta) * (1 # 4))%Q
       else (expectedMin + (1 - expectedMin - delta) * (3 # 4))%Q;
     entropy := λ g, Qsum ((λ p, p * (1 - p))%Q <$> concat g) |}.

(** The handler that line 189 creates for the label 'More'. *)
Definition handler_More : PsiHandler :=
  (new_PsiHandler 10 (1, 40) (1, 20) (1 # 10, 4) 1 (1 # 2) (1 # 10) (1 # 10)
     "lin" (1 # 2))%Q.

(** The insufficient-data sentinel of section 4.5. *)
Definition insufficient_data_sentinel : Py.value :=
  Py.Object [("point_estimate", Py.Float NaN); ("is_outlier_free", Py.Bool false)].

(** A results table without a single incorrect trial. *)
Definition only_correct_trials : Plotting.DataFrame :=
  [ {| Plotting.nTrials := 0; Plotting.Alpha := Fin 12;
       Plotting.Accuracy := Fin 1; Plotting.HR := Fin 60 |};
    {| Plotting.nTrials := 1; Plotting.Alpha := Fin (-7);
       Plotting.Accuracy := Fin 1; Plotting.HR := Fin 62 |} ].

(** ** The figures of [plotting.py]

    A figure is modelled by the drawing calls that reach its axes, in order,
    with the arguments the code computes for them. Colours, sizes and titles
    that no computation feeds are left out. *)

Module Figure.

(** The exceptions that the plotting functions can raise. *)
Inductive Error := ValueError | IndexError | KeyError | ZeroDivisionError.

Inductive outcome (A : Type) :=
| Returns (a : A)
| Raises (e : Error).
Global Arguments Returns {A} a.
Global Arguments Raises {A} e.

Definition and_then {A B} (m : outcome A) (k : A → outcome B) : outcome B :=
  match m with
  | Returns a => k a
  | Raises e => Raises e
  end.

(** The second bound of [fill_between]: one level or one value per sample. *)
Inductive Level := Scalar (v : float) | Curve (v : list float).

Inductive Artist :=
| Line (x y : list float) (fmt : string)                   (* [plot(x, y, fmt)], [fmt] empty if not given *)
| Band (x : list float) (y1 y2 : Level) (where_ : option (list bool))
                                                           (* [fill_between] *)
| HLine (y : float)                                        (* [axhline(y=y)] *)
| Text (x y : float) (prefix : string) (value : float)     (* [text(x, y, prefix + str(value))] *)
| Bar (x : Q) (height : float) (width : Q) (color : string)  (* [bar(x, height, width, color)] *)
| YTicks (ticks : list Q)                                  (* [set_yticks] *)
| YTickLabels (labels : list string).                      (* [set_yticklabels] *)

(** An axes: what was drawn on it, oldest first. *)
Definition Axes := list Artist.

(** A call that draws: the artist is added after those already there. *)
Definition draw (a : Artist) (ax : Axes) : Axes := app ax [a].

(** [ax.plot(x, y, fmt)]: the two arrays must have one length. *)
Definition plot (x y : list float) (fmt : string) (ax : Axes) : outcome Axes :=
  if (length x =? length y)%nat then Returns (draw (Line x y fmt) ax)
  else Raises ValueError.

(** The size of a bound that is an array. *)
Definition size (y : Level) : option nat :=
  match y with
  | Scalar _ => None
  | Curve v => Some (length v)
  end.

(** NumPy's broadcasting of one-dimensional arrays: the sizes other than 1
    are all the same. *)
Definition broadcast (sizes : list nat) : bool :=
  match filter (λ n, n ≠ 1) sizes with
  | [] => true
  | n :: rest => forallb (Nat.eqb n) rest
  end.

(** [ax.fill_between(x, y1, y2, where)]: a [where] of another size than [x]
    is a [ValueError] (since Matplotlib 3.3; a warning before), and so are
    bounds that do not broadcast with [x]. *)
Definition fill_between (x : list float) (y1 y2 : Level)
    (where_ : option (list bool)) (ax : Axes) : outcome Axes :=
  let where_fits := match where_ with
                    | Some m => (length m =? length x)%nat
                    | None => true
                    end in
  if where_fits && broadcast (length x :: omap size [y1; y2])
  then Returns (draw (Band x y1 y2 where_) ax)
  else Raises ValueError.

End Figure.
Export Figure (outcome(..)).

Notation "'let!' x ':=' m 'in' k" := (Figure.and_then m (λ x, k))
  (at level 10, x name, m at level 100, k at level 200).

Module Numpy.

(** [a.min()]: a [ValueError] for an empty array, NaN if the array holds one. *)
Definition amin (a : list float) : outcome float :=
  match a with
  | [] => Raises Figure.ValueError
  | x :: rest =>
      Returns (if existsb Float.is_nan a then NaN
               else foldl (λ m y, if Float.leb y m then y else m) x rest)
  end.

(** [np.where(mask)[0]]: the positions of the true entries. *)
Definition where_ (mask : list bool) : list nat :=
  fst <$> filter (λ im, im.2 = true) (zip (seq 0 (length mask)) mask).

(** [a[idx]] for an integer index array, with [IndexError] out of range
    (as [Np.take], with the exceptions of the figures). *)
Definition take {A} (a : list A) (idx : list nat) : outcome (list A) :=
  match mapM (λ i, a !! i) idx with
  | Some r => Returns r
  | None => Raises Figure.IndexError
  end.

(** [a == v] for an array and an integer. *)
Definition equal (a : list float) (v : Z) : list bool :=
  (λ x, Float.eqb x (Fin (inject_Z v))) <$> a.

(** [a & b] on boolean arrays: entry by entry when the lengths agree, an
    array of length one stretched to the other, a [ValueError] otherwise. *)
Definition logical_and (a b : list bool) : outcome (list bool) :=
  if (length a =? length b)%nat then Returns (zip_with andb a b)
  else match a, b with
       | [x], _ => Returns (andb x <$> b)
       | _, [y] => Returns ((λ x, andb x y) <$> a)
       | _, _ => Raises Figure.ValueError
       end.

(** [x * y] on floats. *)
Definition multiply (x y : float) : float :=
  match x, y with
  | NaN, _ | _, NaN => NaN
  | Fin a, Fin b => Fin (a * b)
  | Fin a, inf | inf, Fin a =>
      match Float.sign a with
      | Eq => NaN
      | Gt => inf
      | Lt => Float.neg inf
      end
  | PInf, PInf | NInf, NInf => PInf
  | PInf, NInf | NInf, PInf => NInf
  end.

End Numpy.

Module Builtins.

(** A number as Python tells them apart: its own [int], or a NumPy integer. *)
Inductive Number := PyInt (n : Z) | NpInt (n : Z).

(** [sum(mask)] on a boolean array: Python's [0] when there is nothing to add,
    a NumPy integer as soon as one entry was added. *)
Definition sum (mask : list bool) : Number :=
  match mask with
  | [] => PyInt 0
  | _ => NpInt (Z.of_nat (length (filter (λ b, b = true) mask)))
  end.

(** [a / b]: between two Python [int]s a zero divisor is a
    [ZeroDivisionError]; with a NumPy integer on either side the division is
    NumPy's, which gives NaN or an infinity. *)
Definition truediv (a b : Number) : outcome float :=
  match a, b with
  | PyInt x, PyInt y =>
      if (y =? 0)%Z then Raises Figure.ZeroDivisionError
      else Returns (Fin (inject_Z x / inject_Z y))
  | PyInt x, NpInt y | NpInt x, PyInt y | NpInt x, NpInt y =>
      Returns (Float.div (Fin (inject_Z x)) (Fin (inject_Z y)))
  end.

End Builtins.

Module Plots.
Import Figure.

(** The recording object that the oximeter functions read. *)
Inductive Channel :=
| Numbers (samples : list float)
| Mask (samples : list bool).

Record Oximeter := {
  times : list float;
  recording : list float;
  threshold : list float;
  peaks : list bool;
  instant_rr : list float;
  channels : list (string * Channel) }.    (* a [dict], in insertion order *)

(** [d[key]]. *)
Fixpoint dict_get (key : string) (d : list (string * Channel)) : option Channel :=
  match d with
  | [] => None
  | (k, v) :: d => if String.eqb k key then Some v else dict_get key d
  end.

(** [d[key] = value]: an existing key keeps its place. *)
Fixpoint dict_set (key : string) (value : Channel) (d : list (string * Channel))
  : list (string * Channel) :=
  match d with
  | [] => [(key, value)]
  | (k, v) :: d =>
      if String.eqb k key then (k, value) :: d else (k, v) :: dict_set key value d
  end.

(** [np.asarray(channel) == 1]; [True == 1] holds in Python. *)
Definition equals_one (c : Channel) : Channel :=
  match c with
  | Numbers samples => Mask (Numpy.equal samples 1)
  | Mask samples => Mask samples
  end.

(** The body of the loop of lines 49-51, for the channel [ev] at position [i].
    The assignment goes to the dictionary of the oximeter itself, before the
    band is drawn. *)
Definition plot_event (x : list float) (state : list (string * Channel) * outcome Axes)
    (i_ev : nat * string) : list (string * Channel) * outcome Axes :=
  let '(events, drawn) := state in
  let '(i, ev) := i_ev in
  match drawn with
  | Raises _ => state
  | Returns ax =>
      match dict_get ev events with
      | None => (events, Raises KeyError)
      | Some channel =>
          let events := dict_set ev (equals_one channel) events in
          let where_ := match dict_get ev events with
                        | Some (Mask m) => Some m
                        | _ => None
                        end in
          (events,
           fill_between x (Scalar (Fin (inject_Z (Z.of_nat i))))
                          (Scalar (Fin (inject_Z (Z.of_nat i + 1)))) where_ ax)
      end
  end.

(** The oximeter with another dictionary of channels. *)
Definition with_channels (events : list (string * Channel)) (oximeter : Oximeter)
  : Oximeter :=
  {| times := times oximeter; recording := recording oximeter;
     threshold := threshold oximeter; peaks := peaks oximeter;
     instant_rr := instant_rr oximeter; channels := events |}.

(** Lines 32-58: what the call gives, and the oximeter as the call leaves
    it. *)
Definition plot_events (oximeter : Oximeter) (ax : Axes) : outcome Axes * Oximeter :=
  let events := channels oximeter in
  let '(events, drawn) :=
    foldl (plot_event (times oximeter)) (events, Returns ax)
          (zip (seq 0 (length events)) (fst <$> events)) in
  (let! ax := drawn in
   let ax := draw (YTicks ((λ i, inject_Z (Z.of_nat i) + (1 # 2))%Q
                             <$> seq 0 (length events))) ax in
   Returns (draw (YTickLabels (fst <$> events)) ax),
   with_channels events oximeter).

(** Lines 61-95. *)
Definition plot_oximeter (oximeter : Oximeter) (ax : Axes) : outcome Axes :=
  let! ax := plot (times oximeter) (threshold oximeter) "" ax in
  let! lowest := Numpy.amin (recording oximeter) in
  let! ax := fill_between (times oximeter) (Curve (threshold oximeter))
                          (Scalar lowest) None ax in
  let! ax := plot (times oximeter) (recording oximeter) "" ax in
  let! lowest := Numpy.amin (recording oximeter) in
  let! ax := fill_between (times oximeter) (Curve (recording oximeter))
                          (Scalar lowest) None ax in
  let! x := Numpy.take (times oximeter) (Numpy.where_ (peaks oximeter)) in
  let! y := Numpy.take (recording oximeter) (Numpy.where_ (peaks oximeter)) in
  plot x y "ro" ax.

(** A column of integers as the floats that are drawn. *)
Definition as_floats (column : list Z) : list float := (λ z, Fin (inject_Z z)) <$> column.

(** [column[results_df.Accuracy == v]]. *)
Definition where_accuracy {A} (results_df : Plotting.DataFrame) (v : Z)
    (column : Plotting.Row → A) : list A :=
  Np_stats.select (column <$> results_df)
                  (Numpy.equal (Plotting.Accuracy <$> results_df) v).

(** Lines 98-162 of [hrd_convergence], called without a path: the left and
    the right panel. *)
Definition hrd_convergence (results_df : Plotting.DataFrame) : outcome (Axes * Axes) :=
  let conv := Plotting.hrd_convergence results_df in
  let left := draw (HLine conv) [] in
  let left := draw (Text (Fin (inject_Z (Z.of_nat (length results_df)) / 2))
                         (Numpy.multiply conv (Fin 2)) "Convergence: " conv) left in
  let! left := plot (as_floats (Plotting.nTrials <$> results_df))
                    (Float.abs <$> (Plotting.Alpha <$> results_df)) "gray" left in
  let! left := plot (as_floats (where_accuracy results_df 1 Plotting.nTrials))
                    (Float.abs <$> where_accuracy results_df 1 Plotting.Alpha)
                    "bo" left in
  let! left := plot (as_floats (where_accuracy results_df 0 Plotting.nTrials))
                    (Float.abs <$> where_accuracy results_df 0 Plotting.Alpha)
                    "ro" left in
  let right := [] in
  let! right := plot (as_floats (Z.of_nat <$> seq 0 (length results_df)))
                     (Plotting.HR <$> results_df) "gray" right in
  let! right := plot (as_floats (where_accuracy results_df 1 Plotting.nTrials))
                     (zip_with Float.add (where_accuracy results_df 1 Plotting.HR)
                                         (where_accuracy results_df 1 Plotting.Alpha))
                     "bo" right in
  let! right := plot (as_floats (where_accuracy results_df 0 Plotting.nTrials))
                     (zip_with Float.add (where_accuracy results_df 0 Plotting.HR)
                                         (where_accuracy results_df 0 Plotting.Alpha))
                     "ro" right in
  let! right := plot (as_floats (Plotting.nTrials <$> results_df))
                     (zip_with Float.add (Plotting.HR <$> results_df)
                                         (Plotting.Alpha <$> results_df))
                     "" right in
  Returns (left, right).

(** The two bars that lines 186-191 draw for one rating. *)
Definition confidence_bars (confidence accuracy : list float) (conf : Z) (ax : Axes)
  : outcome Axes :=
  let! both := Numpy.logical_and (Numpy.equal accuracy 0) (Numpy.equal confidence conf) in
  let! p := Builtins.truediv (Builtins.sum both) (Builtins.sum (Numpy.equal accuracy 0)) in
  let ax := draw (Bar (inject_Z conf - (15 # 100)) p (30 # 100) "r") ax in
  let! both := Numpy.logical_and (Numpy.equal accuracy 1) (Numpy.equal confidence conf) in
  let! p := Builtins.truediv (Builtins.sum both) (Builtins.sum (Numpy.equal accuracy 1)) in
  let ax := draw (Bar (inject_Z conf + (15 # 100)) p (30 # 100) "g") ax in
  Returns ax.

(** Lines 165-201, called without a path: [for conf in range(1, 8)]. *)
Definition plot_confidence (confidence accuracy : list float) : outcome Axes :=
  foldl (λ ax conf, let! ax := ax in confidence_bars confidence accuracy conf ax)
        (Returns []) (seqZ 1 7).

(** The heights of the bars of one colour, in drawing order. *)
Definition heights (color : string) (ax : Axes) : list float :=
  omap (λ a, match a with
             | Bar _ height _ c => if String.eqb c color then Some height else None
             | _ => None
             end) ax.


End Plots.

(** ** Vocabulary for the staircase entries of [parameters] *)

(** The addresses that a 'stairCase' entry holds. *)
Definition addresses (sc : fMRI.StairCase) : list loc :=
  match sc with
  | fMRI.Single l => [l]
  | fMRI.Labelled d => snd <$> map_to_list d
  end.

(** The objects behind a 'stairCase' entry: the handler, or the handler of
    every label. *)
Definition fetch (objects : gmap loc Handler) (sc : fMRI.StairCase)
  : option Handler + gmap string (option Handler) :=
  match sc with
  | fMRI.Single l => inl (objects !! l)
  | fMRI.Labelled d => inr ((λ l, objects !! l) <$> d)
  end.

(** ** Vocabulary for floats *)





(** ** Vocabulary for the confidence figure *)

(** The number of trials with accuracy [v]. *)
Definition trials_of (v : Z) (accuracy : list float) : nat :=
  length (filter (λ a, Float.eqb a (Fin (inject_Z v)) = true) accuracy).

(** The number of trials with accuracy [v] and rating [conf]. *)
Definition trials_rated (v conf : Z) (accuracy confidence : list float) : nat :=
  length (filter (λ t, Float.eqb t.1 (Fin (inject_Z v))
                       && Float.eqb t.2 (Fin (inject_Z conf)) = true)
                 (zip accuracy confidence)).

(** A rating that is one of 1, ..., 7. *)
Definition on_scale (x : float) : bool :=
  existsb (λ conf, Float.eqb x (Fin (inject_Z conf))) (seqZ 1 7).

(** [k / n] as NumPy divides two integers. *)
Definition proportion (k n : nat) : float :=
  Float.div (Fin (inject_Z (Z.of_nat k))) (Fin (inject_Z (Z.of_nat n))).

(** The two bars of one rating. *)
Definition bars_of (accuracy confidence : list float) (conf : Z) : Figure.Axes :=
  [ Figure.Bar (inject_Z conf - (15 # 100))
               (proportion (trials_rated 0 conf accuracy confidence) (trials_of 0 accuracy))
               (30 # 100) "r";
    Figure.Bar (inject_Z conf + (15 # 100))
               (proportion (trials_rated 1 conf accuracy confidence) (trials_of 1 accuracy))
               (30 # 100) "g" ].

(** ** Vocabulary for the oximeter figures *)

(** The number of samples of a channel. *)
Definition samples_of (c : Plots.Channel) : nat :=
  match c with
  | Plots.Numbers samples => length samples
  | Plots.Mask samples => length samples
  end.

(** Where a channel is 1. *)
Definition is_one (c : Plots.Channel) : list bool :=
  match c with
  | Plots.Numbers samples => (λ x, Float.eqb x (Fin (inject_Z 1))) <$> samples
  | Plots.Mask samples => samples
  end.

(** The band of the channel at position [i]. *)
Definition band_of (x : list float) (i : nat) (c : Plots.Channel) : Figure.Artist :=
  Figure.Band x (Figure.Scalar (Fin (inject_Z (Z.of_nat i))))
                (Figure.Scalar (Fin (inject_Z (Z.of_nat i + 1)))) (Some (is_one c)).

(** A recording whose channels have distinct names and one sample per time. *)
Definition one_sample_per_time (oximeter : Plots.Oximeter) : Prop :=
  NoDup (fst <$> Plots.channels oximeter) ∧
  Forall (λ kv, samples_of kv.2 = length (Plots.times oximeter)) (Plots.channels oximeter).

(** The samples at the detected peaks, each with its time. *)
Definition peak_samples (oximeter : Plots.Oximeter) : list (float * float) :=
  snd <$> filter (λ p, p.1 = true)
                 (zip (Plots.peaks oximeter)
                      (zip (Plots.times oximeter) (Plots.recording oximeter))).

(** A recording with two channels, one of numbers and one of booleans. *)
Definition two_channels : Plots.Oximeter :=
  {| Plots.times := [Fin 0; Fin 1; Fin 2];
     Plots.recording := [Fin 120; Fin 200; Fin 90];
     Plots.threshold := [Fin 150; Fin 150; Fin 150];
     Plots.peaks := [false; true; false];
     Plots.instant_rr := [NaN; NaN; NaN];
     Plots.channels := [("sound", Plots.Numbers [Fin 0; Fin 1; Fin 1]);
                        ("response", Plots.Mask [false; false; true])] |}.

(** * Properties *)

(** ** The embedding at work *)

Example round_halves :
  Py.round (Py.truediv 1 2) = 0%Z ∧ Py.round (Py.truediv 3 2) = 2%Z ∧
  Py.round (Py.truediv 5 2) = 2%Z ∧ Py.round (Py.truediv 7 2) = 4%Z ∧
  Py.round (Py.truediv (-3) 2) = (-2)%Z ∧ Py.round (Py.truediv 10 2) = 5%Z.
Proof. repeat split. Qed.

Example conditions_vector_4 :
  conditions_vector 4 = ["More"; "More"; "Less"; "Less"].
Proof. reflexivity. Qed.

Example shuffle_five :
  (Np.shuffle [0; 1; 2; 3; 4] (np_random w0)).1 = [2; 3; 4; 0; 1].
Proof. vm_compute. reflexivity. Qed.

Example take_out_of_range :
  Np.take ["More"; "Less"] [1; 0; 2] = Raise IndexError.
Proof. reflexivity. Qed.

(** With three trials the index array has six entries and the tiled condition
    vector eight: the plan keeps four 'More' and two 'Less'. With five trials
    the index 8 is out of range. *)
Example odd_counts_in_the_fMRI_plan :
  (fst <$> returned (fMRI.condition_plan 3 true w0))
  = Some ["More"; "Less"; "More"; "Less"; "More"; "More"] ∧
  (fMRI.condition_plan 5 false w0).1 = Raise IndexError.
Proof. split; vm_compute; reflexivity. Qed.

Example median_examples :
  Np_stats.median [Fin 3; Fin 1; Fin 2] = Fin 2 ∧
  Np_stats.median [Fin 3; NaN] = NaN ∧
  Np_stats.median [] = NaN.
Proof. repeat split. Qed.

(** One clear outlier among tight values is flagged, and the convergence
    value is the median of the rest. *)
Example one_outlier :
  let row i a acc := {| Plotting.nTrials := i; Plotting.Alpha := Fin (inject_Z a);
                        Plotting.Accuracy := Fin (inject_Z acc); Plotting.HR := Fin 60 |} in
  let results_df := [row 0 (-5) 0; row 1 6 0; row 2 50 1; row 3 (-5) 0;
                     row 4 7 0; row 5 100 0]%Z in
  Pingouin.madmedianrule (Plotting.revers results_df)
  = [false; false; false; false; true] ∧
  Plotting.hrd_convergence results_df = Fin (11 # 2).
Proof. split; vm_compute; reflexivity. Qed.

(** ** Rounding, shuffling and indexing *)

(** [round(n / 2)] on an [int]: exact for an even [n], and the even one of
    the two neighbours for an odd [n]. *)
Lemma round_half (n : Z) :
  Py.round (Py.truediv n 2) =
  if Z.even n then (n `div` 2)%Z
  else if Z.even (n `div` 2) then (n `div` 2)%Z else (n `div` 2 + 1)%Z.
Proof.
  unfold Py.round, Py.truediv.
  assert (Hf : Qfloor (inject_Z n / inject_Z 2) = (n `div` 2)%Z).
  { unfold Qfloor, Qdiv, Qmult, Qinv, inject_Z; simpl. by rewrite Z.mul_1_r. }
  rewrite Hf.
  assert (Hc : Qcompare (inject_Z n / inject_Z 2 - inject_Z (n `div` 2)) (1 # 2)
               = if Z.even n then Lt else Eq).
  { unfold Qcompare, Qminus, Qplus, Qopp, Qdiv, Qmult, Qinv, inject_Z; simpl.
    rewrite (Zeven_mod n), Z.eqb_compare.
    pose proof (Z.div_mod n 2 ltac:(lia)) as Hdm.
    pose proof (Z.mod_pos_bound n 2 ltac:(lia)) as Hb.
    destruct (Z.compare_spec (n `mod` 2) 0) as [H0|H0|H0];
      [apply Z.compare_lt_iff| lia | apply Z.compare_eq_iff]; lia. }
  rewrite Hc. by destruct (Z.even n).
Qed.
(** Exchanging two entries permutes the array. *)
Lemma swap_Permutation {A} (x : list A) i j : Np.swap x i j ≡ₚ x.
Proof.
  unfold Np.swap.
  destruct (x !! i) as [xi|] eqn:Hi; [|done].
  destruct (x !! j) as [xj|] eqn:Hj; [|done].
  pose proof (lookup_lt_Some _ _ _ Hi) as Hli.
  pose proof (lookup_lt_Some _ _ _ Hj) as Hlj.
  symmetry. apply Permutation_inj. split; [by rewrite !length_insert|].
  exists (λ n, if decide (n = i) then j else if decide (n = j) then i else n).
  split.
  - intros a b. repeat case_decide; congruence.
  - intros n. repeat case_decide; subst.
    + rewrite list_lookup_insert_eq by (by rewrite length_insert). done.
    + rewrite list_lookup_insert_ne by done.
      rewrite list_lookup_insert_eq by done. done.
    + by rewrite !list_lookup_insert_ne by done.
Qed.

Lemma shuffle_raw_Permutation {A} i (x : list A) s : (Np.shuffle_raw i x s).1 ≡ₚ x.
Proof.
  revert x s. induction i as [|i IH]; intros x s; [done|].
  cbn [Np.shuffle_raw]. destruct (Np.rk_interval (S i) s) as [j s'].
  rewrite IH. apply swap_Permutation.
Qed.

(** [np.random.shuffle] permutes its argument, whatever the generator draws. *)
Lemma shuffle_Permutation {A} (x : list A) s : (Np.shuffle x s).1 ≡ₚ x.
Proof. apply shuffle_raw_Permutation. Qed.

Lemma length_conditions_vector n :
  length (conditions_vector n) = 2 * Z.to_nat (Py.round (Py.truediv n 2)).
Proof.
  unfold conditions_vector, Np.hstack, Py.repeat. simpl.
  rewrite !length_app, !length_replicate. simpl. lia.
Qed.

Lemma count_replicate_eq x k : count x (replicate k x) = k.
Proof.
  unfold count. induction k as [|k IH]; [done|]. simpl.
  rewrite filter_cons_True by done. simpl. by rewrite IH.
Qed.

Lemma count_replicate_ne x y k : x ≠ y → count x (replicate k y) = 0.
Proof.
  intros Hne. unfold count. induction k as [|k IH]; [done|]. simpl.
  rewrite filter_cons_False by congruence. done.
Qed.

Lemma count_app x a b : count x (a ++ b) = count x a + count x b.
Proof. unfold count. by rewrite filter_app, length_app. Qed.

Global Instance count_Permutation x : Proper ((≡ₚ) ==> (=)) (count x).
Proof. intros a b Hab. unfold count. by rewrite Hab. Qed.

Lemma count_conditions_vector n :
  count "More" (conditions_vector n) = Z.to_nat (Py.round (Py.truediv n 2)) ∧
  count "Less" (conditions_vector n) = Z.to_nat (Py.round (Py.truediv n 2)).
Proof.
  unfold conditions_vector, Np.hstack, Py.repeat. simpl.
  rewrite app_nil_r, !count_app, !count_replicate_eq.
  rewrite !count_replicate_ne by done. lia.
Qed.

Lemma length_conditions_vector_even n :
  Z.even n = true → length (conditions_vector n) = Z.to_nat n.
Proof.
  intros He. rewrite length_conditions_vector, round_half, He.
  apply Zeven_bool_iff, Zeven_ex_iff in He as [k ->].
  rewrite Z.mul_comm, Z.div_mul by lia. lia.
Qed.

Lemma mapM_omap {A B} (f : A → option B) l k : mapM f l = Some k → omap f l = k.
Proof.
  intros H%mapM_Some_1. induction H as [|x y l k Hxy _ IH]; [done|].
  cbn. rewrite Hxy. cbn. f_equal. exact IH.
Qed.

Lemma mapM_lookup_seq {A} (a : list A) : mapM (λ i, a !! i) (seq 0 (length a)) = Some a.
Proof.
  apply mapM_Some_2, Forall2_lookup. intros i.
  destruct (a !! i) as [y|] eqn:Hy.
  - rewrite lookup_seq_lt by (by eapply lookup_lt_Some). by constructor.
  - rewrite lookup_ge_None_2 by (rewrite length_seq; by apply lookup_ge_None).
    constructor.
Qed.

(** Indexing by in-range indices succeeds, entry by entry. *)
Lemma take_Ok {A} (a : list A) idx :
  Forall (λ i, i < length a) idx →
  ∃ r, Np.take a idx = Ok r ∧ ∀ i, r !! i = idx !! i ≫= (λ k, a !! k).
Proof.
  intros Hidx. unfold Np.take.
  destruct (mapM (λ i, a !! i) idx) as [r|] eqn:Hr.
  - exists r. split; [done|]. intros i.
    apply mapM_Some_1 in Hr.
    destruct (idx !! i) as [k|] eqn:Hk; simpl.
    + destruct (Forall2_lookup_l _ _ _ _ _ Hr Hk) as (y & Hy & Hay). by rewrite Hy, Hay.
    + apply lookup_ge_None. apply lookup_ge_None in Hk.
      by rewrite <-(Forall2_length _ _ _ Hr).
  - exfalso. apply mapM_None_1, Exists_exists in Hr as (i & Hi & Hnone).
    rewrite Forall_forall in Hidx. apply Hidx in Hi.
    apply lookup_ge_None in Hnone. lia.
Qed.

(** Indexing by a permutation of all positions permutes the array. *)
Lemma take_Permutation {A} (a r : list A) idx :
  idx ≡ₚ seq 0 (length a) → Np.take a idx = Ok r → r ≡ₚ a.
Proof.
  intros Hperm. unfold Np.take.
  destruct (mapM (λ i, a !! i) idx) as [r'|] eqn:Hr; [|done].
  intros [= <-]. apply mapM_omap in Hr as <-.
  rewrite Hperm. by rewrite (mapM_omap _ _ _ (mapM_lookup_seq a)).
Qed.

(** Two arrays indexed by the same index array stay paired. *)
Lemma take_zip {A B} (a a' : list A) (b b' : list B) idx :
  Np.take a idx = Ok a' → Np.take b idx = Ok b' →
  Np.take (zip a b) idx = Ok (zip a' b').
Proof.
  unfold Np.take.
  destruct (mapM (λ i, a !! i) idx) as [ra|] eqn:Ha; [|done].
  destruct (mapM (λ i, b !! i) idx) as [rb|] eqn:Hb; [|done].
  intros [= <-] [= <-].
  apply mapM_Some_1 in Ha, Hb.
  assert (mapM (λ i, zip a b !! i) idx = Some (zip ra rb)) as ->; [|done].
  apply mapM_Some_2. revert rb Hb.
  induction Ha as [|i x idx ra Hx _ IH]; intros rb Hb; inversion Hb; subst; simpl;
    constructor; [|by apply IH].
  apply lookup_zip_with_Some. eauto.
Qed.

(** ** The condition plan *)

Lemma condition_plan_unfold n ext w :
  fMRI.condition_plan n ext w =
  let rand := Np.shuffle (Np.arange (length (fMRI.label_vectors n ext).2)) (np_random w) in
  let w' := {| np_random := rand.2; heap := heap w |} in
  match Np.take (fMRI.label_vectors n ext).2 rand.1 with
  | Ok Modality =>
      match Np.take (fMRI.label_vectors n ext).1 rand.1 with
      | Ok Conditions => (Ok (Conditions, Modality), w')
      | Raise e => (Raise e, w')
      end
  | Raise e => (Raise e, w')
  end.
Proof.
  unfold fMRI.condition_plan.
  destruct (fMRI.label_vectors n ext) as [C Mo]. simpl.
  unfold bind, np_random_shuffle, lift, ret.
  destruct (Np.shuffle (Np.arange (length Mo)) (np_random w)) as [rand s']. simpl.
  destruct (Np.take Mo rand); [|done]. by destruct (Np.take C rand).
Qed.

Lemma length_label_vectors_even n ext :
  Z.even n = true →
  length (fMRI.label_vectors n ext).1 = length (fMRI.label_vectors n ext).2 ∧
  length (fMRI.label_vectors n ext).2 = if ext then 2 * Z.to_nat n else Z.to_nat n.
Proof.
  intros He. unfold fMRI.label_vectors, Np.tile, Np.hstack, Py.repeat.
  destruct ext; simpl;
    rewrite ?length_app, ?length_replicate, ?length_conditions_vector_even by done;
    simpl; lia.
Qed.

Lemma shuffle_arange n s : (Np.shuffle (Np.arange n) s).1 ≡ₚ seq 0 n.
Proof. apply shuffle_Permutation. Qed.

(** When the two label vectors have one length, the plan is both of them
    indexed by one permutation of their positions. *)
Lemma condition_plan_ok n ext w :
  length (fMRI.label_vectors n ext).1 = length (fMRI.label_vectors n ext).2 →
  ∃ rand Conditions Modality w',
    fMRI.condition_plan n ext w = (Ok (Conditions, Modality), w') ∧
    heap w' = heap w ∧
    rand ≡ₚ seq 0 (length (fMRI.label_vectors n ext).2) ∧
    Np.take (fMRI.label_vectors n ext).1 rand = Ok Conditions ∧
    Np.take (fMRI.label_vectors n ext).2 rand = Ok Modality.
Proof.
  intros Hlen. rewrite condition_plan_unfold. cbv zeta.
  set (Mo := (fMRI.label_vectors n ext).2) in *.
  set (C := (fMRI.label_vectors n ext).1) in *.
  set (rs := Np.shuffle (Np.arange (length Mo)) (np_random w)).
  pose proof (shuffle_arange (length Mo) (np_random w)) as Hperm. fold rs in Hperm.
  assert (Hin : Forall (λ i, i < length Mo) rs.1).
  { rewrite Hperm. apply Forall_seq. lia. }
  destruct (take_Ok Mo rs.1 Hin) as (Mo' & HMo' & _).
  rewrite <-Hlen in Hin.
  destruct (take_Ok C rs.1 Hin) as (C' & HC' & _).
  exists rs.1, C', Mo', {| np_random := rs.2; heap := heap w |}.
  rewrite HMo', HC'. done.
Qed.


Lemma count_tile x a : count x (Np.tile a 2) = 2 * count x a.
Proof. unfold Np.tile. simpl. rewrite app_nil_r, count_app. lia. Qed.

Lemma behav_getParameters_unfold n subject w :
  ∃ l w',
    HeartRateDiscrimination.getParameters_with n subject w =
    (Ok {| HeartRateDiscrimination.nTrials := n;
           HeartRateDiscrimination.Conditions :=
             (Np.shuffle (conditions_vector n) (np_random w)).1;
           HeartRateDiscrimination.stairCase := l;
           HeartRateDiscrimination.subject := subject |}, w').
Proof.
  unfold HeartRateDiscrimination.getParameters_with, bind, np_random_shuffle, new, ret.
  destruct (Np.shuffle (conditions_vector n) (np_random w)) as [c s']. simpl. eauto.
Qed.

(** C1, as amended. For every even trial count [nTrials > 0] both planners
    return a plan; its length is [nTrials], or [2 * nTrials] when the fMRI
    planner runs with exteroception, and 'More' and 'Less' occur equally
    often in it. *)
Theorem balanced_plan_even (nTrials : Z) (subject : string) (exteroception : bool) (w : World) :
  Z.even nTrials = true → (0 < nTrials)%Z →
  (∃ p w',
      HeartRateDiscrimination.getParameters_with nTrials subject w = (Ok p, w') ∧
      Z.of_nat (length (HeartRateDiscrimination.Conditions p)) = nTrials ∧
      count "More" (HeartRateDiscrimination.Conditions p)
      = count "Less" (HeartRateDiscrimination.Conditions p)) ∧
  (∃ Conditions Modality w',
      fMRI.condition_plan nTrials exteroception w = (Ok (Conditions, Modality), w') ∧
      Z.of_nat (length Conditions) = (if exteroception then 2 * nTrials else nTrials)%Z ∧
      count "More" Conditions = count "Less" Conditions).
Proof.
  intros He Hpos. split.
  - destruct (behav_getParameters_unfold nTrials subject w) as (l & w' & ->).
    eexists _, _. split; [done|]. simpl.
    rewrite shuffle_Permutation.
    rewrite length_conditions_vector_even by done.
    destruct (count_conditions_vector nTrials) as [-> ->]. lia.
  - destruct (length_label_vectors_even nTrials exteroception He) as [Hlen HlenM].
    destruct (condition_plan_ok nTrials exteroception w Hlen)
      as (rand & C & Mo & w' & -> & _ & Hperm & HC & _).
    exists C, Mo, w'. split; [done|].
    rewrite <-Hlen in Hperm. apply take_Permutation in HC; [|done].
    rewrite HC, Hlen, HlenM.
    split; [destruct exteroception; lia|].
    unfold fMRI.label_vectors. destruct exteroception; simpl;
      rewrite ?count_tile; destruct (count_conditions_vector nTrials) as [-> ->]; done.
Qed.

(** [balanced_plan_even] at [nTrials = 50], the count of line 44. *)
Lemma balanced_plan_even_witness :
  (∃ p w',
      HeartRateDiscrimination.getParameters_with 50 "sub-01" w0 = (Ok p, w') ∧
      Z.of_nat (length (HeartRateDiscrimination.Conditions p)) = 50%Z ∧
      count "More" (HeartRateDiscrimination.Conditions p)
      = count "Less" (HeartRateDiscrimination.Conditions p)) ∧
  (∃ Conditions Modality w',
      fMRI.condition_plan 50 true w0 = (Ok (Conditions, Modality), w') ∧
      Z.of_nat (length Conditions) = (2 * 50)%Z ∧
      count "More" Conditions = count "Less" Conditions).
Proof. apply (balanced_plan_even 50 "sub-01" true w0); [reflexivity | lia]. Defined.

(** C1 as stated fails at [nTrials = 3]: [round(3 / 2)] is 2, so the plan has
    four entries, two of each label, where the claim wants three entries and
    one label ahead by one. *)
Lemma odd_nTrials_plan_counterexample :
  HeartRateDiscrimination.Conditions
    <$> returned (HeartRateDiscrimination.getParameters_with 3 "sub-01" w0)
  = Some ["More"; "Less"; "Less"; "More"] ∧
  length ["More"; "Less"; "Less"; "More"] ≠ 3 ∧
  count "More" ["More"; "Less"; "Less"; "More"] = count "Less" ["More"; "Less"; "Less"; "More"].
Proof. split; [vm_compute; reflexivity|]. split; [simpl; lia | reflexivity]. Qed.

(** The in-place shuffle of line 51 permutes the condition vector. *)
Lemma behav_shuffle_permutes (nTrials : Z) (subject : string) (w : World) :
  ∃ p w',
    HeartRateDiscrimination.getParameters_with nTrials subject w = (Ok p, w') ∧
    HeartRateDiscrimination.Conditions p ≡ₚ conditions_vector nTrials.
Proof.
  destruct (behav_getParameters_unfold nTrials subject w) as (l & w' & ->).
  eexists _, _. split; [done|]. simpl. apply shuffle_Permutation.
Qed.

(** C3. For an even trial count, as the one line 121 configures, lines
    142-145 index the condition vector and the modality vector by one array
    [rand] that is a permutation of their positions: entry [i] of either
    result is entry [rand[i]] of the vector it comes from, so each result is a
    permutation of its vector and the (condition, modality) pairs are the same
    pairs in another order. *)
Theorem shuffle_permutes_plan (nTrials : Z) (exteroception : bool) (w : World) :
  Z.even nTrials = true →
  (∃ rand Conditions Modality w',
      fMRI.condition_plan nTrials exteroception w = (Ok (Conditions, Modality), w') ∧
      rand ≡ₚ seq 0 (length (fMRI.label_vectors nTrials exteroception).1) ∧
      rand ≡ₚ seq 0 (length (fMRI.label_vectors nTrials exteroception).2) ∧
      (∀ i, Conditions !! i
            = rand !! i ≫= (λ k, (fMRI.label_vectors nTrials exteroception).1 !! k)) ∧
      (∀ i, Modality !! i
            = rand !! i ≫= (λ k, (fMRI.label_vectors nTrials exteroception).2 !! k)) ∧
      Conditions ≡ₚ (fMRI.label_vectors nTrials exteroception).1 ∧
      Modality ≡ₚ (fMRI.label_vectors nTrials exteroception).2 ∧
      zip Conditions Modality
      ≡ₚ zip (fMRI.label_vectors nTrials exteroception).1
             (fMRI.label_vectors nTrials exteroception).2).
Proof.
  intros He.
  - destruct (length_label_vectors_even nTrials exteroception He) as [Hlen _].
    destruct (condition_plan_ok nTrials exteroception w Hlen)
      as (rand & C & Mo & w' & -> & _ & Hperm & HC & HMo).
    exists rand, C, Mo, w'. split; [done|].
    assert (Hin : Forall (λ i, i < length (fMRI.label_vectors nTrials exteroception).2) rand).
    { rewrite Hperm. apply Forall_seq. lia. }
    destruct (take_Ok _ _ Hin) as (Mo' & HMo' & HlookM).
    rewrite <-Hlen in Hin.
    destruct (take_Ok _ _ Hin) as (C' & HC' & HlookC).
    assert (C' = C) as -> by congruence. assert (Mo' = Mo) as -> by congruence.
    pose proof (take_zip _ _ _ _ _ HC HMo) as Hzip.
    repeat split; try done.
    + by rewrite Hlen.
    + apply (take_Permutation _ _ rand); [by rewrite Hlen | done].
    + by apply (take_Permutation _ _ rand).
    + apply (take_Permutation _ _ rand); [|done].
      by rewrite length_zip_with, <-Hlen, Nat.min_id, Hlen.
Qed.

(** [shuffle_permutes_plan] at [nTrials = 10], the count of line 121. *)
Lemma shuffle_permutes_plan_witness :
  (∃ rand Conditions Modality w',
      fMRI.condition_plan 10 true w0 = (Ok (Conditions, Modality), w') ∧
      rand ≡ₚ seq 0 (length (fMRI.label_vectors 10 true).1) ∧
      rand ≡ₚ seq 0 (length (fMRI.label_vectors 10 true).2) ∧
      (∀ i, Conditions !! i = rand !! i ≫= (λ k, (fMRI.label_vectors 10 true).1 !! k)) ∧
      (∀ i, Modality !! i = rand !! i ≫= (λ k, (fMRI.label_vectors 10 true).2 !! k)) ∧
      Conditions ≡ₚ (fMRI.label_vectors 10 true).1 ∧
      Modality ≡ₚ (fMRI.label_vectors 10 true).2 ∧
      zip Conditions Modality
      ≡ₚ zip (fMRI.label_vectors 10 true).1 (fMRI.label_vectors 10 true).2).
Proof. apply (shuffle_permutes_plan 10 true w0). reflexivity. Defined.

Lemma conditions_vector_nonpos n : (n ≤ 0)%Z → conditions_vector n = [].
Proof.
  intros Hn. unfold conditions_vector, Np.hstack, Py.repeat.
  assert (Py.round (Py.truediv n 2) ≤ 0)%Z as Hr.
  { rewrite round_half.
    pose proof (Z.div_mod n 2 ltac:(lia)) as Hdm.
    pose proof (Z.mod_pos_bound n 2 ltac:(lia)) as Hb.
    rewrite Zmod_odd, <-Z.negb_even in Hdm.
    destruct (Z.even n); simpl in Hdm; [lia|].
    destruct (Z.even (n `div` 2)); lia. }
  by rewrite Z2Nat.nonpos.
Qed.

Lemma label_vectors_nonpos n ext : (n ≤ 0)%Z → fMRI.label_vectors n ext = ([], []).
Proof.
  intros Hn. unfold fMRI.label_vectors, Py.repeat.
  rewrite conditions_vector_nonpos, Z2Nat.nonpos by done. by destruct ext.
Qed.

(** C8, as amended. For every [nTrials <= 0] nothing is raised: the
    behavioural [getParameters] returns with an empty condition vector, and
    the fMRI planner returns the empty plan and leaves the world as it was. *)
Theorem nonpositive_count_builds_empty_plan
    (nTrials : Z) (subject : string) (exteroception : bool) (w : World) :
  (nTrials ≤ 0)%Z →
  (∃ p w',
      HeartRateDiscrimination.getParameters_with nTrials subject w = (Ok p, w') ∧
      HeartRateDiscrimination.Conditions p = []) ∧
  fMRI.condition_plan nTrials exteroception w = (Ok ([], []), w).
Proof.
  intros Hn. split.
  - destruct (behav_getParameters_unfold nTrials subject w) as (l & w' & ->).
    eexists _, _. split; [done|]. simpl. by rewrite conditions_vector_nonpos.
  - rewrite condition_plan_unfold, label_vectors_nonpos by done.
    simpl. by destruct w.
Qed.

(** [nonpositive_count_builds_empty_plan] at [nTrials = 0]. *)
Lemma nonpositive_count_builds_empty_plan_witness :
  (∃ p w',
      HeartRateDiscrimination.getParameters_with 0 "sub-01" w0 = (Ok p, w') ∧
      HeartRateDiscrimination.Conditions p = []) ∧
  fMRI.condition_plan 0 true w0 = (Ok ([], []), w0).
Proof. apply (nonpositive_count_builds_empty_plan 0 "sub-01" true w0). lia. Defined.

(** C8 as stated fails at [nTrials = -1] and at [nTrials = 0]: the planners
    return an empty plan where the claim wants a [ConfigurationError]. *)
Lemma nonpositive_count_counterexample :
  (fMRI.condition_plan (-1) false w0).1 = Ok ([], []) ∧
  (fMRI.condition_plan (-1) false w0).1 ≠ Raise ConfigurationError ∧
  HeartRateDiscrimination.Conditions
    <$> returned (HeartRateDiscrimination.getParameters_with 0 "sub-01" w0) = Some [].
Proof. split; [|split]; [vm_compute; reflexivity | vm_compute; discriminate | vm_compute; reflexivity]. Qed.

(** ** The staircase blocks *)

Lemma one_staircase_ok n st w :
  ∃ sc w', fMRI.one_staircase n st w = (Ok sc, w') ∧ np_random w' = np_random w.
Proof.
  unfold fMRI.one_staircase, bind, new, ret.
  destruct (String.eqb st "UpDown"); [by eexists _, _|].
  destruct (String.eqb st "psi"); by eexists _, _.
Qed.

Lemma two_staircases_ok n st w :
  ∃ sc w', fMRI.two_staircases n st w = (Ok sc, w') ∧ np_random w' = np_random w.
Proof.
  unfold fMRI.two_staircases, bind, new, ret.
  destruct (String.eqb st "UpDown"); [by eexists _, _|].
  destruct (String.eqb st "psi"); by eexists _, _.
Qed.

Lemma configure_stairCase_valid n nS st w :
  nS = 1%Z ∨ nS = 2%Z →
  ∃ sc w', fMRI.configure_stairCase n nS st w = (Ok sc, w') ∧ np_random w' = np_random w.
Proof.
  unfold fMRI.configure_stairCase.
  intros [-> | ->]; simpl; [apply one_staircase_ok | apply two_staircases_ok].
Qed.

Lemma configure_stairCase_invalid n nS st w :
  nS ≠ 1%Z → nS ≠ 2%Z →
  fMRI.configure_stairCase n nS st w = (Raise (ValueError "Invalid number of Staircase"), w).
Proof.
  intros H1 H2. unfold fMRI.configure_stairCase.
  destruct (Z.eqb_spec nS 1); [done|]. destruct (Z.eqb_spec nS 2); done.
Qed.

Lemma configure_exteroStairCase_ok n nS ext st w :
  ∃ sc w', fMRI.configure_exteroStairCase n nS ext st w = (Ok sc, w')
           ∧ np_random w' = np_random w.
Proof.
  unfold fMRI.configure_exteroStairCase.
  destruct ext; [|by eexists _, _].
  destruct (nS =? 1)%Z; [apply one_staircase_ok|].
  destruct (nS =? 2)%Z; [apply two_staircases_ok|]. by eexists _, _.
Qed.

Lemma fMRI_getParameters_unfold n subj num nS ext st w :
  fMRI.getParameters_with n subj num nS ext st w =
  match fMRI.condition_plan n ext w with
  | (Ok (C, Mo), w1) =>
      match fMRI.configure_stairCase n nS st w1 with
      | (Ok sc, w2) =>
          match fMRI.configure_exteroStairCase n nS ext st w2 with
          | (Ok esc, w3) =>
              (Ok {| fMRI.nTrials := n; fMRI.nStaircase := nS; fMRI.stairType := st;
                     fMRI.Conditions := C; fMRI.Modality := Mo;
                     fMRI.stairCase := sc; fMRI.exteroStairCase := esc;
                     fMRI.subject := subj; fMRI.subjectNumber := num |}, w3)
          | (Raise e, w3) => (Raise e, w3)
          end
      | (Raise e, w2) => (Raise e, w2)
      end
  | (Raise e, w1) => (Raise e, w1)
  end.
Proof.
  unfold fMRI.getParameters_with, bind.
  destruct (fMRI.condition_plan n ext w) as [[[C Mo]|e] w1]; [|done].
  destruct (fMRI.configure_stairCase n nS st w1) as [[sc|e] w2]; [|done].
  destruct (fMRI.configure_exteroStairCase n nS ext st w2) as [[esc|e] w3]; done.
Qed.

(** C10. With [nStaircase] other than 1 and 2, [getParameters] raises
    [ValueError('Invalid number of Staircase')] and the heap holds no object
    that it did not hold before the call; with [nStaircase] 1 or 2 the call
    returns. *)
Theorem invalid_nStaircase_raises (subjectID : string) (subjectNumber nStaircase : Z)
    (exteroception : bool) (stairType : string) (w : World) :
  (nStaircase ≠ 1%Z → nStaircase ≠ 2%Z →
   ∃ w', fMRI.getParameters subjectID subjectNumber nStaircase exteroception stairType w
         = (Raise (ValueError "Invalid number of Staircase"), w')
         ∧ heap w' = heap w) ∧
  (nStaircase = 1%Z ∨ nStaircase = 2%Z →
   ∃ p w', fMRI.getParameters subjectID subjectNumber nStaircase exteroception stairType w
           = (Ok p, w')).
Proof.
  unfold fMRI.getParameters. rewrite fMRI_getParameters_unfold.
  destruct (length_label_vectors_even 10 exteroception eq_refl) as [Hlen _].
  destruct (condition_plan_ok 10 exteroception w Hlen)
    as (rand & C & Mo & w1 & -> & Hheap & _).
  split.
  - intros H1 H2. rewrite configure_stairCase_invalid by done. eauto.
  - intros Hvalid.
    destruct (configure_stairCase_valid 10 nStaircase stairType w1 Hvalid)
      as (sc & w2 & -> & _).
    destruct (configure_exteroStairCase_ok 10 nStaircase exteroception stairType w2)
      as (esc & w3 & -> & _).
    eauto.
Qed.

(** [invalid_nStaircase_raises] at [nStaircase = 3] and at [nStaircase = 2]. *)
Lemma invalid_nStaircase_raises_witness :
  (∃ w', fMRI.getParameters "sub-01" 1 3 true "psi" w0
         = (Raise (ValueError "Invalid number of Staircase"), w')
         ∧ heap w' = heap w0) ∧
  (∃ p w', fMRI.getParameters "sub-01" 1 2 true "psi" w0 = (Ok p, w')).
Proof.
  split.
  - apply (invalid_nStaircase_raises "sub-01" 1 3 true "psi" w0); lia.
  - apply (invalid_nStaircase_raises "sub-01" 1 2 true "psi" w0); lia.
Defined.


(** ** The generator behind the plan *)

Lemma condition_plan_generator n ext w1 w2 :
  np_random w1 = np_random w2 →
  (fMRI.condition_plan n ext w1).1 = (fMRI.condition_plan n ext w2).1 ∧
  np_random (fMRI.condition_plan n ext w1).2 = np_random (fMRI.condition_plan n ext w2).2.
Proof.
  intros Heq. rewrite !condition_plan_unfold. cbv zeta. rewrite Heq.
  destruct (Np.take _ _); [|done]. by destruct (Np.take _ _).
Qed.

Lemma fMRI_plan_of n subj num nS ext st w :
  plan_of (fMRI.getParameters_with n subj num nS ext st w) =
  if bool_decide (nS = 1%Z ∨ nS = 2%Z)
  then match (fMRI.condition_plan n ext w).1 with
       | Ok plan => Some plan
       | Raise _ => None
       end
  else None.
Proof.
  rewrite fMRI_getParameters_unfold.
  destruct (fMRI.condition_plan n ext w) as [[[C Mo]|e] w1]; simpl;
    [|by case_bool_decide].
  case_bool_decide as HnS.
  - destruct (configure_stairCase_valid n nS st w1 HnS) as (sc & w2 & -> & _).
    by destruct (configure_exteroStairCase_ok n nS ext st w2) as (esc & w3 & -> & _).
  - rewrite configure_stairCase_invalid by naive_solver. done.
Qed.

(** C7, as amended. The plan is a function of the state of the process-wide
    generator and of the flags: two calls that start from the same generator
    state return the same plan, whatever the subject, the subject number and
    the objects alive. The generator is not an argument of [getParameters]. *)
Theorem plan_determined_by_generator_state
    (nTrials : Z) (subject1 subject2 : string) (number1 number2 nStaircase : Z)
    (exteroception : bool) (stairType : string) (w1 w2 : World) :
  np_random w1 = np_random w2 →
  plan_of (fMRI.getParameters_with nTrials subject1 number1 nStaircase exteroception stairType w1)
  = plan_of (fMRI.getParameters_with nTrials subject2 number2 nStaircase exteroception stairType w2)
  ∧ HeartRateDiscrimination.Conditions
      <$> returned (HeartRateDiscrimination.getParameters_with nTrials subject1 w1)
    = HeartRateDiscrimination.Conditions
      <$> returned (HeartRateDiscrimination.getParameters_with nTrials subject2 w2).
Proof.
  intros Heq. split.
  - rewrite !fMRI_plan_of.
    by destruct (condition_plan_generator nTrials exteroception w1 w2 Heq) as [-> _].
  - destruct (behav_getParameters_unfold nTrials subject1 w1) as (l1 & w1' & ->).
    destruct (behav_getParameters_unfold nTrials subject2 w2) as (l2 & w2' & ->).
    unfold returned. simpl. by rewrite Heq.
Qed.


(** [plan_determined_by_generator_state] for two subjects and two heaps. *)
Lemma plan_determined_by_generator_state_witness :
  plan_of (fMRI.getParameters_with 10 "sub-01" 1 2 true "psi" w0)
  = plan_of (fMRI.getParameters_with 10 "sub-02" 2 2 true "psi" w0_busy)
  ∧ HeartRateDiscrimination.Conditions
      <$> returned (HeartRateDiscrimination.getParameters_with 10 "sub-01" w0)
    = HeartRateDiscrimination.Conditions
      <$> returned (HeartRateDiscrimination.getParameters_with 10 "sub-02" w0_busy).
Proof.
  apply (plan_determined_by_generator_state 10 "sub-01" "sub-02" 1 2 2 true "psi" w0 w0_busy).
  reflexivity.
Defined.

(** C7 as stated fails: the caller passes no random source, and two calls in
    a row with the same arguments return different plans, because the first
    call advanced the hidden generator. *)
Lemma hidden_generator_counterexample :
  let first := fMRI.getParameters "sub-01" 1 1 false "UpDown" w0 in
  let second := fMRI.getParameters "sub-01" 1 1 false "UpDown" first.2 in
  fst <$> plan_of first
  = Some ["More"; "More"; "Less"; "Less"; "Less"; "Less"; "More"; "Less"; "More"; "More"] ∧
  fst <$> plan_of second
  = Some ["Less"; "More"; "More"; "Less"; "More"; "Less"; "Less"; "More"; "More"; "Less"] ∧
  plan_of first ≠ plan_of second.
Proof.
  split; [|split]; [vm_compute; reflexivity | vm_compute; reflexivity | vm_compute; discriminate].
Qed.

(** ** The up-down staircase *)

Lemma clamp_bounds lo hi x :
  (lo <= hi)%Q → (lo <= UpDownStaircase.clamp lo hi x)%Q ∧ (UpDownStaircase.clamp lo hi x <= hi)%Q.
Proof.
  intros Hlh. unfold UpDownStaircase.clamp.
  destruct (Qlt_le_dec x lo) as [Hx|Hx]; [split; [apply Qle_refl | done]|].
  destruct (Qlt_le_dec hi x) as [Hy|Hy]; [split; [done | apply Qle_refl]|].
  done.
Qed.


Lemma update_config h r :
  minVal (UpDownStaircase.update h r) = minVal h ∧
  maxVal (UpDownStaircase.update h r) = maxVal h.
Proof. done. Qed.

Lemma update_within_bounds h r :
  (minVal h <= maxVal h)%Q → within_bounds h → within_bounds (UpDownStaircase.update h r).
Proof.
  intros Hlh Hin. unfold within_bounds, UpDownStaircase.next_intensity, UpDownStaircase.update.
  cbn [sh_state minVal maxVal].
  destruct r.
  - destruct (_ <=? _)%nat; [apply clamp_bounds; done | exact Hin].
  - destruct (_ <=? _)%nat; [apply clamp_bounds; done | exact Hin].
Qed.

Lemma run_within_bounds h responses :
  (minVal h <= maxVal h)%Q → within_bounds h →
  within_bounds (UpDownStaircase.run h responses).
Proof.
  revert h. unfold UpDownStaircase.run.
  induction responses as [|r responses IH]; intros h Hlh Hin; [done|].
  simpl. apply IH; [by destruct (update_config h r) as [-> ->]|].
  by apply update_within_bounds.
Qed.

Lemma run_config h responses :
  minVal (UpDownStaircase.run h responses) = minVal h ∧
  maxVal (UpDownStaircase.run h responses) = maxVal h.
Proof.
  revert h. unfold UpDownStaircase.run.
  induction responses as [|r responses IH]; intros h; [done|]. simpl.
  destruct (IH (UpDownStaircase.update h r)) as [-> ->]. apply update_config.
Qed.


(** C4. The staircase of lines 156-160 starts at 40; the first correct
    response leaves it there, the second moves it down by 20 without a
    reversal, the incorrect response moves it up by 20; and after any script
    of responses the intensity lies in [[1, 100]]. *)
Theorem updown_correct_correct_incorrect :
  fMRI.single_updown 10 = HStair configured_updown ∧
  let after responses :=
    UpDownStaircase.next_intensity (UpDownStaircase.run configured_updown responses) in
  let reversals responses :=
    n_reversals (sh_state (UpDownStaircase.run configured_updown responses)) in
  after [] = 40%Q ∧
  after [true] = 40%Q ∧
  after [true; true] = (40 - 20)%Q ∧
  reversals [true; true] = 0 ∧
  after [true; true; false] = (40 - 20 + 20)%Q ∧
  ∀ responses, (1 <= after responses)%Q ∧ (after responses <= 100)%Q.
Proof.
  split; [reflexivity|]. cbv zeta.
  do 5 (split; [reflexivity|]).
  intros responses.
  pose proof (run_within_bounds configured_updown responses) as Hin.
  unfold within_bounds in Hin.
  destruct (run_config configured_updown responses) as [Hmin Hmax].
  rewrite Hmin, Hmax in Hin. apply Hin; done.
Qed.

(** ** The Psi staircase *)

Section psi_posterior.
Context `{PsiFunctions}.
Import PsiStaircase.


Lemma Qsum_scale m l : (Qsum ((λ p, p / m) <$> l) == Qsum l / m)%Q.
Proof.
  induction l as [|x l IH]; simpl.
  - unfold Qdiv. ring.
  - rewrite IH. unfold Qdiv. ring.
Qed.

Lemma Qsum_pos l : l ≠ [] → Forall (λ p, 0 < p)%Q l → (0 < Qsum l)%Q.
Proof.
  intros Hne Hpos. induction Hpos as [|x l Hx Hl IH]; [done|]. simpl.
  destruct l as [|y l].
  - simpl. by rewrite Qplus_0_r.
  - rewrite <-(Qplus_0_r 0). apply Qplus_lt_le_compat; [done|].
    apply Qlt_le_weak, IH. done.
Qed.

Lemma concat_replicate {A} n m (x : A) :
  concat (replicate n (replicate m x)) = replicate (n * m) x.
Proof.
  induction n as [|n IH]; [done|]. simpl. by rewrite IH, <-replicate_add.
Qed.

Lemma concat_renormalize m g :
  concat (renormalize m g) = (λ p, p / m)%Q <$> concat g.
Proof.
  unfold renormalize. induction g as [|row g IH]; [done|].
  rewrite fmap_cons. cbn [concat]. by rewrite fmap_app, IH.
Qed.

Lemma grid_sum_scale m g : (grid_sum (renormalize m g) == grid_sum g / m)%Q.
Proof. unfold grid_sum. rewrite concat_renormalize. apply Qsum_scale. Qed.

(** Renormalizing by the total mass leaves a grid that sums to one. *)
Lemma grid_sum_renormalize g :
  ¬ (grid_sum g == 0)%Q → (grid_sum (renormalize (grid_sum g) g) == 1)%Q.
Proof. intros Hne. rewrite grid_sum_scale. by field. Qed.


Lemma positive_grid_sum rows cols g :
  0 < rows → 0 < cols → positive_grid rows cols g → (0 < grid_sum g)%Q.
Proof.
  intros Hr Hc [Hlen Hrows]. apply Qsum_pos.
  - destruct g as [|row g]; [simpl in Hlen; lia|].
    apply Forall_cons in Hrows as [[Hrow _] _].
    destruct row; [simpl in Hrow; lia | done].
  - apply Forall_concat. eapply Forall_impl; [exact Hrows|]. by intros row [_ ?].
Qed.

Lemma positive_grid_uniform rows cols :
  0 < rows → 0 < cols → positive_grid rows cols (uniform_grid rows cols).
Proof.
  intros Hr Hc. unfold uniform_grid. split; [by rewrite length_replicate|].
  apply Forall_replicate. split; [by rewrite length_replicate|].
  apply Forall_replicate. apply Qlt_shift_div_l.
  - unfold Qlt. simpl. lia.
  - rewrite Qmult_0_l. done.
Qed.

Lemma positive_grid_pointwise rows cols g1 g2 :
  positive_grid rows cols g1 → positive_grid rows cols g2 →
  positive_grid rows cols (pointwise g1 g2).
Proof.
  intros [Hl1 Hr1] [Hl2 Hr2]. unfold pointwise. split.
  - rewrite length_zip_with. lia.
  - clear Hl1 Hl2. revert g2 Hr2.
    induction Hr1 as [|r1 g1 [Hc1 Hp1] _ IH]; intros g2 Hr2; [constructor|].
    destruct Hr2 as [|r2 g2 [Hc2 Hp2] Hr2]; [constructor|]. simpl.
    constructor; [|by apply IH]. split; [rewrite length_zip_with; lia|].
    clear Hc1 Hc2. revert r2 Hp2.
    induction Hp1 as [|x r1 Hx _ IHr]; intros r2 Hp2; [constructor|].
    destruct Hp2 as [|y r2 Hy Hp2]; [constructor|]. simpl.
    constructor; [|by apply IHr]. by apply Qmult_lt_0_compat.
Qed.

Lemma positive_grid_renormalize rows cols m g :
  (0 < m)%Q → positive_grid rows cols g → positive_grid rows cols (renormalize m g).
Proof.
  intros Hm [Hl Hr]. unfold renormalize. split; [by rewrite length_fmap|].
  apply Forall_fmap. eapply Forall_impl; [exact Hr|].
  intros row [Hc Hp]. simpl. split; [by rewrite length_fmap|].
  apply Forall_fmap. eapply Forall_impl; [exact Hp|].
  intros p Hpos. simpl. apply Qlt_shift_div_l; [done|]. by rewrite Qmult_0_l.
Qed.

Variable h0 : PsiHandler.

(** The guess and lapse rates keep every response possible. *)
Hypothesis psychometric_range : ∀ intensity alpha beta,
  (0 < psychometric (expectedMin h0) (delta h0) intensity alpha beta)%Q ∧
  (psychometric (expectedMin h0) (delta h0) intensity alpha beta < 1)%Q.

Lemma positive_grid_likelihood intensity was_correct :
  positive_grid (length (alphas h0)) (length (betas h0))
                (likelihood h0 intensity was_correct).
Proof.
  unfold likelihood. split; [by rewrite length_fmap|].
  apply Forall_fmap, Forall_true. intros a. simpl.
  split; [by rewrite length_fmap|].
  apply Forall_fmap, Forall_true. intros b. simpl.
  destruct (psychometric_range intensity a b) as [Hlo Hhi].
  destruct was_correct; [done|]. by apply Qlt_minus_iff in Hhi.
Qed.


Hypothesis grid_not_empty : alphas h0 ≠ [] ∧ betas h0 ≠ [].

Lemma grid_dimensions : 0 < length (alphas h0) ∧ 0 < length (betas h0).
Proof.
  destruct grid_not_empty as [Ha Hb].
  destruct (alphas h0), (betas h0); simpl; try done; lia.
Qed.

Lemma update_at_normalized h intensity was_correct :
  normalized h0 h →
  ∃ h', update_at h intensity was_correct = Ok h' ∧ normalized h0 h'.
Proof.
  intros (Hcfg & Hpos & Hsum).
  destruct grid_dimensions as [Hr Hc].
  unfold update_at. rewrite Hcfg.
  change (likelihood (with_state h0 (psi_state h)) intensity was_correct)
    with (likelihood h0 intensity was_correct).
  cbn [psi_state with_state].
  set (g := pointwise (posterior (psi_state h)) (likelihood h0 intensity was_correct)).
  assert (Hg : positive_grid (length (alphas h0)) (length (betas h0)) g).
  { apply positive_grid_pointwise; [done|]. apply positive_grid_likelihood. }
  pose proof (positive_grid_sum _ _ _ Hr Hc Hg) as Hmass.
  destruct (Qeq_bool (grid_sum g) 0) eqn:Hz.
  { apply Qeq_bool_eq in Hz. rewrite Hz in Hmass. by apply Qlt_irrefl in Hmass. }
  eexists. split; [done|]. split; [done|]. cbn [psi_state posterior]. split.
  - by apply positive_grid_renormalize.
  - apply grid_sum_renormalize. intros Hz'. rewrite Hz' in Hmass.
    by apply Qlt_irrefl in Hmass.
Qed.

Hypothesis fresh_handler :
  posterior (psi_state h0) = uniform_grid (length (alphas h0)) (length (betas h0)).

Lemma uniform_grid_sum rows cols :
  0 < rows → 0 < cols → (grid_sum (uniform_grid rows cols) == 1)%Q.
Proof.
  intros Hr Hc. unfold grid_sum, uniform_grid.
  set (p := (1 / inject_Z (Z.of_nat (rows * cols)))%Q).
  assert (Hs : ∀ n, (foldr Qplus 0 (replicate n p) == inject_Z (Z.of_nat n) * p)%Q).
  { induction n as [|n IH]; [simpl; ring|].
    rewrite Nat2Z.inj_succ. unfold Z.succ. rewrite inject_Z_plus. simpl.
    rewrite IH. ring. }
  rewrite concat_replicate, Hs. unfold p. field.
  intros Hz. unfold Qeq in Hz. simpl in Hz. nia.
Qed.

Lemma fresh_normalized : normalized h0 h0.
Proof.
  destruct grid_dimensions as [Hr Hc]. split; [by destruct h0|].
  rewrite fresh_handler. split.
  - by apply positive_grid_uniform.
  - by apply uniform_grid_sum.
Qed.

Lemma reachable_normalized h : reachable h0 h → normalized h0 h.
Proof.
  induction 1 as [|h intensity was_correct h' _ IH Hupd]; [apply fresh_normalized|].
  destruct (update_at_normalized h intensity was_correct IH) as (h'' & Hupd' & Hn).
  congruence.
Qed.

End psi_posterior.


(** C5. If the psychometric function stays strictly between 0 and 1 and the
    grid is not empty, then from every handler reachable from a fresh one,
    for every presented intensity and every response, [update] returns and
    leaves a posterior of positive entries that sums to one. *)
Theorem psi_update_keeps_posterior_normalized `{PsiFunctions}
    (h0 h : PsiHandler) (intensity : Q) (was_correct : bool) :
  (∀ x alpha beta,
      (0 < psychometric (expectedMin h0) (delta h0) x alpha beta)%Q ∧
      (psychometric (expectedMin h0) (delta h0) x alpha beta < 1)%Q) →
  PsiStaircase.alphas h0 ≠ [] ∧ PsiStaircase.betas h0 ≠ [] →
  posterior (psi_state h0)
  = uniform_grid (length (PsiStaircase.alphas h0)) (length (PsiStaircase.betas h0)) →
  PsiStaircase.reachable h0 h →
  (∃ h', PsiStaircase.update_at h intensity was_correct = Ok h' ∧
         (PsiStaircase.grid_sum (posterior (psi_state h')) == 1)%Q ∧
         Forall (Forall (λ p, 0 < p)%Q) (posterior (psi_state h'))) ∧
  (∃ h', PsiStaircase.update h was_correct = Ok h' ∧
         (PsiStaircase.grid_sum (posterior (psi_state h')) == 1)%Q ∧
         Forall (Forall (λ p, 0 < p)%Q) (posterior (psi_state h'))).
Proof.
  intros Hrange Hgrid Hfresh Hreach.
  pose proof (reachable_normalized h0 Hrange Hgrid Hfresh h Hreach) as Hn.
  assert (Hstep : ∀ x, ∃ h', PsiStaircase.update_at h x was_correct = Ok h' ∧
         (PsiStaircase.grid_sum (posterior (psi_state h')) == 1)%Q ∧
         Forall (Forall (λ p, 0 < p)%Q) (posterior (psi_state h'))).
  { intros x.
    destruct (update_at_normalized h0 Hrange Hgrid h x was_correct Hn)
      as (h' & Hupd & _ & [_ Hpos] & Hsum).
    exists h'. split; [done|]. split; [done|].
    eapply Forall_impl; [exact Hpos|]. by intros row [_ ?]. }
  split; [apply Hstep|]. apply (Hstep (PsiStaircase.next_intensity h)).
Qed.

Lemma step_functions_range x alpha beta :
  (0 < @psychometric step_functions (expectedMin handler_More) (delta handler_More) x alpha beta)%Q ∧
  (@psychometric step_functions (expectedMin handler_More) (delta handler_More) x alpha beta < 1)%Q.
Proof. simpl. destruct (Qle_bool _ _); split; reflexivity. Qed.

(** [psi_update_keeps_posterior_normalized] for the handler of the label
    'More' and the step instance of the two functions. *)
Lemma psi_update_keeps_posterior_normalized_witness :
  (∃ h', @PsiStaircase.update_at step_functions handler_More 20 true = Ok h' ∧
         (PsiStaircase.grid_sum (posterior (psi_state h')) == 1)%Q ∧
         Forall (Forall (λ p, 0 < p)%Q) (posterior (psi_state h'))) ∧
  (∃ h', @PsiStaircase.update step_functions handler_More true = Ok h' ∧
         (PsiStaircase.grid_sum (posterior (psi_state h')) == 1)%Q ∧
         Forall (Forall (λ p, 0 < p)%Q) (posterior (psi_state h'))).
Proof.
  apply (@psi_update_keeps_posterior_normalized step_functions handler_More handler_More 20 true).
  - apply step_functions_range.
  - split; vm_compute; discriminate.
  - reflexivity.
  - constructor.
Defined.

(** ** The staircase manager *)

Section manager.
Context `{PsiFunctions}.
Import StaircaseManager.


Lemma report_outcome_heap staircases c r w :
  np_random (report_outcome staircases c r w).2 = np_random w ∧
  (heap (report_outcome staircases c r w).2 = heap w ∨
   ∃ l h, staircases !! c = Some l ∧
          heap (report_outcome staircases c r w).2 = <[l := h]> (heap w)).
Proof.
  unfold report_outcome, bind, lookup_staircase.
  destruct (staircases !! c) as [l|]; [|by split; [|left]].
  destruct (heap w !! l) as [[h|h|h]|]; simpl; try (by split; [|left]).
  - split; [done|]. right. by eexists _, _.
  - unfold lift. destruct (PsiStaircase.update h r); simpl; [|by split; [|left]].
    split; [done|]. right. by eexists _, _.
Qed.

Lemma select_intensity_heap staircases c w w' :
  (∀ l, staircases !! c = Some l → heap w' !! l = heap w !! l) →
  (select_intensity staircases c w').1 = (select_intensity staircases c w).1.
Proof.
  intros Hsame. unfold select_intensity, bind, lookup_staircase.
  destruct (staircases !! c) as [l|]; [|done].
  rewrite (Hsame l eq_refl).
  by destruct (heap w !! l) as [[h|h|h]|].
Qed.

(** One report for a condition leaves what every other condition selects. *)
Lemma report_outcome_frame staircases c c' r w :
  separate staircases → c ≠ c' →
  (select_intensity staircases c' (report_outcome staircases c r w).2).1
  = (select_intensity staircases c' w).1.
Proof.
  intros Hsep Hne. apply select_intensity_heap. intros l' Hl'.
  destruct (report_outcome_heap staircases c r w) as [_ [-> | (l & h & Hl & ->)]]; [done|].
  apply lookup_insert_ne. by apply (Hsep c c').
Qed.

Lemma report_outcomes_frame staircases c c' script w :
  separate staircases → c ≠ c' →
  (select_intensity staircases c' (report_outcomes staircases c script w)).1
  = (select_intensity staircases c' w).1.
Proof.
  intros Hsep Hne. revert w.
  induction script as [|r script IH]; intros w; [done|]. simpl.
  rewrite IH. by apply report_outcome_frame.
Qed.

Lemma two_staircases_psi n w :
  let less := fresh (dom (heap w)) in
  let heap1 := <[less := fMRI.psi_Less n]> (heap w) in
  let more := fresh (dom heap1) in
  fMRI.two_staircases n "psi" w =
  (Ok (Some (fMRI.Labelled (<["More" := more]> (<["Less" := less]> ∅)))),
   {| np_random := np_random w; heap := <[more := fMRI.psi_More n]> heap1 |}).
Proof. reflexivity. Qed.

Lemma fresh_insert_ne (heap0 : gmap loc Handler) h :
  fresh (dom (<[fresh (dom heap0) := h]> heap0)) ≠ fresh (dom heap0).
Proof.
  intros Heq.
  pose proof (is_fresh (dom (<[fresh (dom heap0) := h]> heap0))) as Hfresh.
  rewrite Heq in Hfresh. apply Hfresh. rewrite dom_insert_L. set_solver.
Qed.

Lemma separate_two less more :
  less ≠ more →
  separate (<["More" := more]> (<["Less" := less]> (∅ : gmap string loc))).
Proof.
  intros Hne c c' l l' Hcc Hl Hl'.
  apply lookup_insert_Some in Hl as [[<- <-]|[? Hl]];
    apply lookup_insert_Some in Hl' as [[<- <-]|[? Hl']]; try done.
  - apply lookup_insert_Some in Hl' as [[<- <-]|[? Hl']]; done.
  - apply lookup_insert_Some in Hl as [[<- <-]|[? Hl]]; done.
  - apply lookup_insert_Some in Hl as [[<- <-]|[? Hl]]; [|done].
    apply lookup_insert_Some in Hl' as [[<- <-]|[? Hl']]; done.
Qed.

(** A later constructor call does not move or change a live object. *)
Lemma new_preserves h w l obj :
  heap w !! l = Some obj → heap (new h w).2 !! l = Some obj.
Proof.
  intros Hl. unfold new. simpl. rewrite lookup_insert_ne; [done|].
  intros <-. pose proof (is_fresh (dom (heap w))) as Hfresh.
  apply Hfresh, elem_of_dom. eauto.
Qed.

Lemma one_staircase_preserves n st w l obj :
  heap w !! l = Some obj → heap (fMRI.one_staircase n st w).2 !! l = Some obj.
Proof.
  intros Hl. unfold fMRI.one_staircase, bind, ret.
  destruct (String.eqb st "UpDown"); [by apply new_preserves|].
  destruct (String.eqb st "psi"); [by apply new_preserves | done].
Qed.

Lemma two_staircases_preserves n st w l obj :
  heap w !! l = Some obj → heap (fMRI.two_staircases n st w).2 !! l = Some obj.
Proof.
  intros Hl. unfold fMRI.two_staircases, bind, ret.
  destruct (String.eqb st "UpDown"); [by apply new_preserves|].
  destruct (String.eqb st "psi"); [|done].
  change (heap (new (fMRI.psi_More n) (new (fMRI.psi_Less n) w).2).2 !! l = Some obj).
  by do 2 apply new_preserves.
Qed.

Lemma configure_exteroStairCase_preserves n nS ext st w l obj :
  heap w !! l = Some obj →
  heap (fMRI.configure_exteroStairCase n nS ext st w).2 !! l = Some obj.
Proof.
  intros Hl. unfold fMRI.configure_exteroStairCase.
  destruct ext; [|done].
  destruct (nS =? 1)%Z; [by apply one_staircase_preserves|].
  destruct (nS =? 2)%Z; [by apply two_staircases_preserves | done].
Qed.

Lemma select_intensity_psi staircases c l h w :
  staircases !! c = Some l → heap w !! l = Some (HPsi h) →
  (select_intensity staircases c w).1 = Ok (PsiStaircase.next_intensity h).
Proof.
  intros Hc Hl. unfold select_intensity, bind, lookup_staircase. by rewrite Hc, Hl.
Qed.

(** C6. [getParameters] with two Psi staircases returns a dictionary that
    sends 'Less' and 'More' to two different objects, each of which selects an
    intensity; and in every world, after any script of outcomes reported for
    one label, the other label selects what it selected before. *)
Theorem labelled_staircases_are_independent
    (subjectID : string) (subjectNumber : Z) (exteroception : bool) (w : World) :
  ∃ p w1 less more,
    let staircases : gmap string loc := <["More" := more]> (<["Less" := less]> ∅) in
    fMRI.getParameters subjectID subjectNumber 2 exteroception "psi" w = (Ok p, w1) ∧
    fMRI.stairCase p = Some (fMRI.Labelled staircases) ∧
    less ≠ more ∧
    heap w1 !! less = Some (fMRI.psi_Less 10) ∧
    heap w1 !! more = Some (fMRI.psi_More 10) ∧
    (∃ x, (select_intensity staircases "Less" w1).1 = Ok x) ∧
    (∃ x, (select_intensity staircases "More" w1).1 = Ok x) ∧
    ∀ (script : list bool) (w' : World),
      (select_intensity staircases "More" (report_outcomes staircases "Less" script w')).1
      = (select_intensity staircases "More" w').1 ∧
      (select_intensity staircases "Less" (report_outcomes staircases "More" script w')).1
      = (select_intensity staircases "Less" w').1.
Proof.
  unfold fMRI.getParameters. rewrite fMRI_getParameters_unfold.
  destruct (length_label_vectors_even 10 exteroception eq_refl) as [Hlen _].
  destruct (condition_plan_ok 10 exteroception w Hlen)
    as (rand & C & Mo & w1 & -> & Hheap & _).
  change (fMRI.configure_stairCase 10 2 "psi" w1) with (fMRI.two_staircases 10 "psi" w1).
  rewrite two_staircases_psi. cbv zeta.
  set (less := fresh (dom (heap w1))).
  set (heap1 := <[less := fMRI.psi_Less 10]> (heap w1)).
  set (more := fresh (dom heap1)).
  set (w2 := {| np_random := np_random w1; heap := <[more := fMRI.psi_More 10]> heap1 |}).
  assert (Hne : less ≠ more).
  { intros Heq. by apply (fresh_insert_ne (heap w1) (fMRI.psi_Less 10)). }
  pose proof (configure_exteroStairCase_preserves 10 2 exteroception "psi" w2) as Hkeep.
  destruct (configure_exteroStairCase_ok 10 2 exteroception "psi" w2)
    as (esc & w3 & Hesc & _).
  rewrite Hesc in Hkeep |- *. simpl in Hkeep.
  assert (Hless : heap w3 !! less = Some (fMRI.psi_Less 10)).
  { apply Hkeep. subst w2 heap1. simpl.
    rewrite lookup_insert_ne by done. apply lookup_insert_eq. }
  assert (Hmore : heap w3 !! more = Some (fMRI.psi_More 10)).
  { apply Hkeep. subst w2. simpl. apply lookup_insert_eq. }
  eexists _, w3, less, more. do 5 (split; [done|]).
  split; [|split].
  - eexists. eapply select_intensity_psi; [|exact Hless].
    rewrite lookup_insert_ne by done. apply lookup_insert_eq.
  - eexists. eapply select_intensity_psi; [|exact Hmore]. apply lookup_insert_eq.
  - intros script w'.
    split; apply report_outcomes_frame; try done; by apply separate_two.
Qed.

End manager.

(** ** The convergence line *)







Lemma select_all_flagged {A} (a : list A) (mask : list bool) :
  Forall (λ flagged, flagged = true) mask → Np_stats.select a (negb <$> mask) = [].
Proof.
  unfold Np_stats.select. intros Hall. revert a.
  induction Hall as [|m mask -> _ IH]; intros [|x a]; try done.
  rewrite fmap_cons. cbn [zip_with]. rewrite filter_cons_False by done. apply IH.
Qed.

(** C9, as amended. When no trial has accuracy 0, or when every point is
    flagged as an outlier, [conv] is NaN; computing it raises nothing. *)
Theorem convergence_nan_without_data (results_df : Plotting.DataFrame) :
  Plotting.revers results_df = [] ∨
  Forall (λ flagged, flagged = true) (Pingouin.madmedianrule (Plotting.revers results_df)) →
  Plotting.hrd_convergence results_df = NaN.
Proof.
  unfold Plotting.hrd_convergence. cbv zeta.
  intros [-> | Hall]; [done|]. by rewrite select_all_flagged.
Qed.


(** [convergence_nan_without_data] for a table of correct trials only. *)
Lemma convergence_nan_without_data_witness :
  Plotting.hrd_convergence only_correct_trials = NaN.
Proof.
  apply (convergence_nan_without_data only_correct_trials). left. reflexivity.
Defined.

(** C9 as stated fails for the empty table: [conv] is NaN, but it is a bare
    float, not the two-field sentinel, and it has no [is_outlier_free] to
    read. *)
Lemma convergence_sentinel_counterexample :
  Plotting.conv [] = Py.Float NaN ∧
  Plotting.conv [] ≠ insufficient_data_sentinel ∧
  Py.getattr (Plotting.conv []) "is_outlier_free" = None ∧
  Py.getattr insufficient_data_sentinel "is_outlier_free" = Some (Py.Bool false).
Proof. repeat split. discriminate. Qed.

(** * Further properties: parameters and figures *)

(** ** [getParameters]: what the staircase blocks leave behind *)

Lemma staircase_unknown_type n st w :
  st ≠ "UpDown" → st ≠ "psi" →
  fMRI.one_staircase n st w = (Ok None, w) ∧ fMRI.two_staircases n st w = (Ok None, w).
Proof.
  intros H1 H2. unfold fMRI.one_staircase, fMRI.two_staircases.
  destruct (String.eqb_spec st "UpDown"); [done|].
  destruct (String.eqb_spec st "psi"); done.
Qed.

(** A staircase type other than 'UpDown' and 'psi' is not an error: with one
    or two staircases the call returns, no staircase object is created and
    neither 'stairCase' nor 'exteroStairCase' is set. *)
Theorem unknown_stairType_configures_nothing
    (subjectID : string) (subjectNumber nStaircase : Z) (exteroception : bool)
    (stairType : string) (w : World) :
  nStaircase = 1%Z ∨ nStaircase = 2%Z →
  stairType ≠ "UpDown" → stairType ≠ "psi" →
  ∃ p w',
    fMRI.getParameters subjectID subjectNumber nStaircase exteroception stairType w
    = (Ok p, w') ∧
    fMRI.stairCase p = None ∧ fMRI.exteroStairCase p = None ∧ heap w' = heap w.
Proof.
  intros HnS H1 H2.
  unfold fMRI.getParameters. rewrite fMRI_getParameters_unfold.
  destruct (length_label_vectors_even 10 exteroception eq_refl) as [Hlen _].
  destruct (condition_plan_ok 10 exteroception w Hlen)
    as (rand & C & Mo & w1 & -> & Hheap & _).
  assert (fMRI.configure_stairCase 10 nStaircase stairType w1 = (Ok None, w1)) as ->.
  { unfold fMRI.configure_stairCase.
    destruct HnS as [-> | ->]; simpl; by apply staircase_unknown_type. }
  assert (fMRI.configure_exteroStairCase 10 nStaircase exteroception stairType w1
          = (Ok None, w1)) as ->.
  { unfold fMRI.configure_exteroStairCase. destruct exteroception; [|done].
    destruct HnS as [-> | ->]; simpl; by apply staircase_unknown_type. }
  by eexists _, _.
Qed.

Lemma unknown_stairType_configures_nothing_witness :
  ∃ p w',
    fMRI.getParameters "sub-01" 1 2 true "PSI" w0 = (Ok p, w') ∧
    fMRI.stairCase p = None ∧ fMRI.exteroStairCase p = None ∧ heap w' = heap w0.
Proof.
  apply (unknown_stairType_configures_nothing "sub-01" 1 2 true "PSI" w0);
    [right; reflexivity | discriminate | discriminate].
Defined.

(** ** The plan for every trial count *)

Lemma take_length {A} (a r : list A) idx : Np.take a idx = Ok r → length r = length idx.
Proof.
  unfold Np.take. destruct (mapM _ idx) as [r'|] eqn:Hr; [|done].
  intros [= <-]. symmetry. by eapply length_mapM.
Qed.

(** Whenever the plan is built, one index array of the length of the modality
    vector produced both results. *)
Lemma condition_plan_returns n ext w C Mo w' :
  fMRI.condition_plan n ext w = (Ok (C, Mo), w') →
  ∃ rand, rand ≡ₚ seq 0 (length (fMRI.label_vectors n ext).2) ∧
          Np.take (fMRI.label_vectors n ext).1 rand = Ok C ∧
          Np.take (fMRI.label_vectors n ext).2 rand = Ok Mo.
Proof.
  rewrite condition_plan_unfold. cbv zeta.
  set (rs := Np.shuffle _ _). intros Hplan. exists rs.1.
  split; [apply shuffle_arange|].
  destruct (Np.take (fMRI.label_vectors n ext).2 rs.1) as [Mo'|]; [|done].
  destruct (Np.take (fMRI.label_vectors n ext).1 rs.1) as [C'|]; [|done].
  by simplify_eq.
Qed.

Lemma Permutation_replicate {A} (l : list A) n x : l ≡ₚ replicate n x → l = replicate n x.
Proof.
  intros Hperm. pose proof (Permutation_length Hperm) as Hlen.
  rewrite length_replicate in Hlen. subst n.
  symmetry. apply replicate_as_Forall. split; [done|].
  rewrite Hperm. apply Forall_replicate. done.
Qed.

(** Whenever the fMRI plan is built, for any trial count, it has one modality
    per condition; with exteroception the modalities are [nTrials] times
    'Extero' and [nTrials] times 'Intero' in some order, without it they are
    [nTrials] times 'Intero'. *)
Theorem modality_vector_is_balanced
    (nTrials : Z) (exteroception : bool) (w : World) (Conditions Modality : list string) :
  returned (fMRI.condition_plan nTrials exteroception w) = Some (Conditions, Modality) →
  length Conditions = length Modality ∧
  if exteroception
  then count "Extero" Modality = Z.to_nat nTrials ∧
       count "Intero" Modality = Z.to_nat nTrials ∧
       length Modality = 2 * Z.to_nat nTrials
  else Modality = replicate (Z.to_nat nTrials) "Intero".
Proof.
  unfold returned.
  destruct (fMRI.condition_plan nTrials exteroception w) as [[[C Mo]|e] w'] eqn:Hplan;
    [|done].
  simpl. intros [= -> ->].
  apply condition_plan_returns in Hplan as (rand & Hperm & HC & HMo).
  split; [by rewrite (take_length _ _ _ HC), (take_length _ _ _ HMo)|].
  apply take_Permutation in HMo; [|done].
  unfold fMRI.label_vectors in HMo. destruct exteroception; simpl in HMo.
  - rewrite HMo. unfold Np.hstack, Py.repeat. simpl.
    rewrite app_nil_r, !count_app, !count_replicate_eq, !length_app, !length_replicate.
    rewrite !count_replicate_ne by done. lia.
  - by apply Permutation_replicate.
Qed.

Lemma modality_vector_is_balanced_witness :
  length ["More"; "More"; "Less"; "Less"] = length ["Extero"; "Intero"; "Intero"; "Extero"] ∧
  count "Extero" ["Extero"; "Intero"; "Intero"; "Extero"] = Z.to_nat 2 ∧
  count "Intero" ["Extero"; "Intero"; "Intero"; "Extero"] = Z.to_nat 2 ∧
  length ["Extero"; "Intero"; "Intero"; "Extero"] = 2 * Z.to_nat 2.
Proof.
  apply (modality_vector_is_balanced 2 true w0 ["More"; "More"; "Less"; "Less"]
           ["Extero"; "Intero"; "Intero"; "Extero"]).
  vm_compute. reflexivity.
Defined.

Lemma round_half_odd n :
  (n `mod` 4 = 1 → Py.round (Py.truediv n 2) = (n - 1) `div` 2)%Z ∧
  (n `mod` 4 = 3 → Py.round (Py.truediv n 2) = (n + 1) `div` 2)%Z.
Proof.
  rewrite round_half.
  split; intros Hmod.
  - destruct (Z.even n) eqn:He.
    { apply Z.even_spec in He as [k Hk]. exfalso. Z.div_mod_to_equations. lia. }
    destruct (Z.even (n `div` 2)) eqn:He2; [Z.div_mod_to_equations; lia|].
    rewrite <-Z.negb_odd in He2. apply negb_false_iff, Z.odd_spec in He2 as [k Hk].
    exfalso. Z.div_mod_to_equations. lia.
  - destruct (Z.even n) eqn:He.
    { apply Z.even_spec in He as [k Hk]. exfalso. Z.div_mod_to_equations. lia. }
    destruct (Z.even (n `div` 2)) eqn:He2; [|Z.div_mod_to_equations; lia].
    apply Z.even_spec in He2 as [k Hk].
    exfalso. Z.div_mod_to_equations. lia.
Qed.

(** The behavioural plan for a positive trial count: the two labels occur
    equally often for every count; the length is the count when it is even,
    one less when it leaves 1 modulo 4, and one more when it leaves 3. *)
Theorem behavioural_plan_length (nTrials : Z) (subject : string) (w : World) :
  (0 < nTrials)%Z →
  ∃ p w',
    HeartRateDiscrimination.getParameters_with nTrials subject w = (Ok p, w') ∧
    count "More" (HeartRateDiscrimination.Conditions p)
    = count "Less" (HeartRateDiscrimination.Conditions p) ∧
    Z.of_nat (length (HeartRateDiscrimination.Conditions p))
    = (if (nTrials `mod` 4 =? 1) then nTrials - 1
       else if (nTrials `mod` 4 =? 3) then nTrials + 1
       else nTrials)%Z.
Proof.
  intros Hpos.
  destruct (behav_getParameters_unfold nTrials subject w) as (l & w' & ->).
  eexists _, _. split; [done|]. simpl. rewrite shuffle_Permutation.
  destruct (count_conditions_vector nTrials) as [-> ->]. split; [done|].
  rewrite length_conditions_vector.
  destruct (round_half_odd nTrials) as [H1 H3].
  destruct (Z.eqb_spec (nTrials `mod` 4) 1) as [E1|E1].
  { rewrite H1 by done. Z.div_mod_to_equations. lia. }
  destruct (Z.eqb_spec (nTrials `mod` 4) 3) as [E3|E3].
  { rewrite H3 by done. Z.div_mod_to_equations. lia. }
  assert (Z.even nTrials = true) as He.
  { apply Z.even_spec. exists (nTrials `div` 2)%Z. Z.div_mod_to_equations. lia. }
  rewrite <-length_conditions_vector, length_conditions_vector_even by done. lia.
Qed.

Lemma behavioural_plan_length_witness :
  ∃ p w',
    HeartRateDiscrimination.getParameters_with 7 "sub-01" w0 = (Ok p, w') ∧
    count "More" (HeartRateDiscrimination.Conditions p)
    = count "Less" (HeartRateDiscrimination.Conditions p) ∧
    Z.of_nat (length (HeartRateDiscrimination.Conditions p)) = (7 + 1)%Z.
Proof. apply (behavioural_plan_length 7 "sub-01" w0). lia. Defined.

(** An index array that covers more positions than the array has raises. *)
Lemma take_IndexError {A} (a : list A) idx m :
  idx ≡ₚ seq 0 m → length a < m → Np.take a idx = Raise IndexError.
Proof.
  intros Hperm Hlen. unfold Np.take.
  assert (mapM (λ i, a !! i) idx = None) as ->; [|done].
  apply mapM_None_2, Exists_exists. exists (length a). split.
  - rewrite Hperm. apply elem_of_seq. lia.
  - by apply lookup_ge_None.
Qed.

(** An index array that covers the first [m] positions permutes them. *)
Lemma take_prefix_Permutation {A} (a r : list A) idx m :
  idx ≡ₚ seq 0 m → (m ≤ length a)%nat → Np.take a idx = Ok r → r ≡ₚ firstn m a.
Proof.
  intros Hperm Hm Htake. apply (take_Permutation _ _ idx).
  - by rewrite length_take_le.
  - unfold Np.take in *.
    rewrite (Forall_mapM_ext _ (λ i, a !! i)); [done|].
    rewrite Hperm. apply Forall_seq. intros i Hi. apply lookup_take_lt. lia.
Qed.

Lemma count_take_app x m a b :
  count x (firstn m (a ++ b)%list) = count x (firstn m a) + count x (firstn (m - length a) b).
Proof. by rewrite take_app, count_app. Qed.

Lemma count_take_replicate x y m k :
  count x (firstn m (replicate k y)) = if decide (x = y) then m `min` k else 0.
Proof.
  rewrite take_replicate. case_decide as Hxy.
  - subst. apply count_replicate_eq.
  - by apply count_replicate_ne.
Qed.

(** For a trial count that leaves 1 modulo 4 the condition vector is shorter
    than the modality vector, and the fMRI plan raises [IndexError] whatever
    the generator draws. *)
Theorem fMRI_plan_raises_IndexError (nTrials : Z) (exteroception : bool) (w : World) :
  (0 < nTrials)%Z → (nTrials `mod` 4 = 1)%Z →
  (fMRI.condition_plan nTrials exteroception w).1 = Raise IndexError.
Proof.
  intros Hpos Hmod. rewrite condition_plan_unfold. cbv zeta.
  set (rs := Np.shuffle _ _).
  pose proof (shuffle_arange (length (fMRI.label_vectors nTrials exteroception).2)
                (np_random w)) as Hperm. fold rs in Hperm.
  assert (Hin : Forall (λ i, i < length (fMRI.label_vectors nTrials exteroception).2) rs.1).
  { rewrite Hperm. apply Forall_seq. lia. }
  destruct (take_Ok _ _ Hin) as (Mo' & -> & _).
  rewrite (take_IndexError _ _ _ Hperm); [done|].
  destruct (round_half_odd nTrials) as [Hround _]. specialize (Hround Hmod).
  unfold fMRI.label_vectors, Np.tile, Np.hstack, Py.repeat.
  destruct exteroception; simpl;
    rewrite ?length_app, ?length_replicate, ?length_conditions_vector, Hround; simpl;
    Z.div_mod_to_equations; lia.
Qed.

Lemma fMRI_plan_raises_IndexError_witness :
  (fMRI.condition_plan 5 true w0).1 = Raise IndexError.
Proof. apply (fMRI_plan_raises_IndexError 5 true w0); [lia | reflexivity]. Defined.

(** For a trial count that leaves 3 modulo 4 the condition vector is longer
    than the modality vector: the fMRI plan is built from its first entries,
    and 'More' is ahead of 'Less' by one without exteroception and by two
    with it. *)
Theorem fMRI_plan_is_unbalanced (nTrials : Z) (exteroception : bool) (w : World) :
  (0 < nTrials)%Z → (nTrials `mod` 4 = 3)%Z →
  ∃ Conditions Modality w',
    fMRI.condition_plan nTrials exteroception w = (Ok (Conditions, Modality), w') ∧
    Z.of_nat (length Conditions) = (if exteroception then 2 * nTrials else nTrials)%Z ∧
    count "More" Conditions
    = count "Less" Conditions + (if exteroception then 2 else 1).
Proof.
  intros Hpos Hmod.
  destruct (round_half_odd nTrials) as [_ Hround]. specialize (Hround Hmod).
  set (k := Z.to_nat ((nTrials + 1) `div` 2)).
  assert (Hk : Z.to_nat nTrials = 2 * k - 1 ∧ (2 ≤ k)%nat).
  { subst k. Z.div_mod_to_equations. lia. }
  assert (HC0 : conditions_vector nTrials
                = (replicate k "More" ++ replicate k "Less" ++ [])%list).
  { unfold conditions_vector, Np.hstack, Py.repeat. by rewrite Hround. }
  assert (HMo0 : length (fMRI.label_vectors nTrials exteroception).2
                 = if exteroception then 2 * Z.to_nat nTrials else Z.to_nat nTrials).
  { unfold fMRI.label_vectors, Np.hstack, Py.repeat.
    destruct exteroception; simpl; rewrite ?length_app, !length_replicate; simpl; lia. }
  assert (HlenC0 : length (fMRI.label_vectors nTrials exteroception).1
                   = if exteroception then 4 * k else 2 * k).
  { unfold fMRI.label_vectors, Np.tile. rewrite HC0.
    destruct exteroception; simpl; rewrite ?length_app, !length_replicate; simpl; lia. }
  rewrite condition_plan_unfold. cbv zeta.
  set (rs := Np.shuffle _ _).
  pose proof (shuffle_arange (length (fMRI.label_vectors nTrials exteroception).2)
                (np_random w)) as Hperm. fold rs in Hperm.
  assert (Hin : Forall (λ i, i < length (fMRI.label_vectors nTrials exteroception).2) rs.1).
  { rewrite Hperm. apply Forall_seq. lia. }
  destruct (take_Ok _ _ Hin) as (Mo' & HMo' & _). rewrite HMo'.
  assert (Hin' : Forall (λ i, i < length (fMRI.label_vectors nTrials exteroception).1) rs.1).
  { eapply Forall_impl; [exact Hin|]. intros i Hi. simpl in *.
    rewrite HlenC0. rewrite HMo0 in Hi. destruct exteroception; lia. }
  destruct (take_Ok _ _ Hin') as (C' & HC' & _). rewrite HC'.
  eexists _, _, _. split; [done|].
  split.
  { rewrite (take_length _ _ _ HC'), Hperm, length_seq, HMo0.
    destruct exteroception; lia. }
  rewrite (take_prefix_Permutation _ _ _ _ Hperm ltac:(rewrite HlenC0, HMo0;
             destruct exteroception; lia) HC').
  rewrite HMo0. unfold fMRI.label_vectors, Np.tile. rewrite HC0.
  destruct exteroception; simpl;
    rewrite ?app_nil_r, !count_take_app, !count_take_replicate, ?length_app,
      !length_replicate;
    repeat case_decide; try done; lia.
Qed.

Lemma fMRI_plan_is_unbalanced_witness :
  ∃ Conditions Modality w',
    fMRI.condition_plan 3 true w0 = (Ok (Conditions, Modality), w') ∧
    Z.of_nat (length Conditions) = (2 * 3)%Z ∧
    count "More" Conditions = count "Less" Conditions + 2.
Proof. apply (fMRI_plan_is_unbalanced 3 true w0); [lia | reflexivity]. Defined.

(** ** The interoceptive and the exteroceptive staircases *)

Lemma fresh_not_live (objects : gmap loc Handler) l obj :
  objects !! l = Some obj → l ≠ fresh (dom objects).
Proof.
  intros Hl ->. apply (is_fresh (dom objects)), elem_of_dom. eauto.
Qed.

(** One constructor call stored as the whole entry. *)
Lemma single_block h w :
  (∀ l, l ∈ addresses (fMRI.Single (fresh (dom (heap w)))) →
        (l ∉ dom (heap w)) ∧ is_Some (heap (new h w).2 !! l)) ∧
  (∀ l obj, heap w !! l = Some obj → heap (new h w).2 !! l = Some obj) ∧
  (∀ objects : gmap loc Handler,
      (∀ l obj, heap (new h w).2 !! l = Some obj → objects !! l = Some obj) →
      fetch objects (fMRI.Single (fresh (dom (heap w)))) = inl (Some h)).
Proof.
  simpl. split; [|split].
  - intros l ->%list_elem_of_singleton.
    split; [apply is_fresh | by rewrite lookup_insert_eq].
  - intros l obj Hl. rewrite lookup_insert_ne; [done|].
    by apply not_eq_sym, (fresh_not_live _ _ obj).
  - intros objects Hobj. f_equal. apply Hobj, lookup_insert_eq.
Qed.

(** One staircase block, run in any world: the entry it returns holds
    addresses that were free and are now in use, the objects that were alive
    are as they were, and behind the entry are handlers that the arguments
    fix. *)
Lemma staircase_block n nS st :
  nS = 1%Z ∨ nS = 2%Z → st = "UpDown" ∨ st = "psi" →
  ∃ cfg, ∀ w, ∃ sc w',
    (if (nS =? 1)%Z then fMRI.one_staircase n st else fMRI.two_staircases n st) w
    = (Ok (Some sc), w') ∧
    (∀ l, l ∈ addresses sc → (l ∉ dom (heap w)) ∧ is_Some (heap w' !! l)) ∧
    (∀ l obj, heap w !! l = Some obj → heap w' !! l = Some obj) ∧
    (∀ objects : gmap loc Handler,
        (∀ l obj, heap w' !! l = Some obj → objects !! l = Some obj) →
        fetch objects sc = cfg).
Proof.
  intros [-> | ->] [-> | ->]; simpl.
  - exists (inl (Some (fMRI.single_updown n))). intros w.
    eexists _, _. split; [reflexivity|]. apply single_block.
  - exists (inl (Some (fMRI.single_psi n))). intros w.
    eexists _, _. split; [reflexivity|]. apply single_block.
  - exists (inl (Some (HMulti (new_MultiStairHandler fMRI.updown_conditions n)))).
    intros w. eexists _, _. split; [reflexivity|]. apply single_block.
  - exists (inr (<["More" := Some (fMRI.psi_More n)]>
                   (<["Less" := Some (fMRI.psi_Less n)]> ∅))).
    intros w. rewrite two_staircases_psi. cbv zeta.
    set (less := fresh (dom (heap w))).
    set (heap1 := <[less := fMRI.psi_Less n]> (heap w)).
    set (more := fresh (dom heap1)).
    assert (Hne : more ≠ less) by apply fresh_insert_ne.
    eexists _, _. split; [reflexivity|]. simpl.
    split; [|split].
    + intros l (kl & -> & Hkl)%list_elem_of_fmap.
      destruct kl as [k l]. apply elem_of_map_to_list in Hkl. simpl.
      apply lookup_insert_Some in Hkl as [[_ <-]|[_ Hkl]].
      * split; [|by rewrite lookup_insert_eq].
        intros Hin. apply (is_fresh (dom heap1)). fold more.
        subst heap1. rewrite dom_insert_L. set_solver.
      * apply lookup_insert_Some in Hkl as [[_ <-]|[_ Hkl]]; [|done].
        split; [apply is_fresh|].
        rewrite lookup_insert_ne by done. subst heap1. by rewrite lookup_insert_eq.
    + intros l obj Hl.
      rewrite lookup_insert_ne.
      * subst heap1. rewrite lookup_insert_ne; [done|].
        by apply not_eq_sym, (fresh_not_live _ _ obj).
      * apply not_eq_sym, (fresh_not_live _ _ obj). subst heap1.
        rewrite lookup_insert_ne; [done|].
        by apply not_eq_sym, (fresh_not_live _ _ obj).
    + intros objects Hobj. f_equal. rewrite !fmap_insert, fmap_empty.
      rewrite (Hobj more (fMRI.psi_More n)) by apply lookup_insert_eq.
      rewrite (Hobj less (fMRI.psi_Less n)); [done|].
      rewrite lookup_insert_ne by done. apply lookup_insert_eq.
Qed.

(** With exteroception, and a valid number and type of staircases, the
    entries 'stairCase' and 'exteroStairCase' hold different addresses, none
    of which was in use before the call; the handlers behind the two entries
    are configured alike; and the objects that were alive before the call are
    as they were. *)
Theorem intero_and_extero_staircases_are_separate
    (subjectID : string) (subjectNumber nStaircase : Z) (stairType : string) (w : World) :
  nStaircase = 1%Z ∨ nStaircase = 2%Z →
  stairType = "UpDown" ∨ stairType = "psi" →
  ∃ p w' sc esc,
    fMRI.getParameters subjectID subjectNumber nStaircase true stairType w = (Ok p, w') ∧
    fMRI.stairCase p = Some sc ∧ fMRI.exteroStairCase p = Some esc ∧
    (∀ l, l ∈ addresses sc → l ∉ addresses esc) ∧
    (∀ l, l ∈ addresses sc ∨ l ∈ addresses esc → l ∉ dom (heap w)) ∧
    fetch (heap w') sc = fetch (heap w') esc ∧
    (∀ l obj, heap w !! l = Some obj → heap w' !! l = Some obj).
Proof.
  intros HnS Hst.
  unfold fMRI.getParameters. rewrite fMRI_getParameters_unfold.
  destruct (length_label_vectors_even 10 true eq_refl) as [Hlen _].
  destruct (condition_plan_ok 10 true w Hlen) as (rand & C & Mo & w1 & -> & Hheap & _).
  destruct (staircase_block 10 nStaircase stairType HnS Hst) as (cfg & Hblock).
  destruct (Hblock w1) as (sc & w2 & Hrun1 & Hfree1 & Hkeep1 & Hcfg1).
  destruct (Hblock w2) as (esc & w3 & Hrun2 & Hfree2 & Hkeep2 & Hcfg2).
  assert (fMRI.configure_stairCase 10 nStaircase stairType w1 = (Ok (Some sc), w2)) as ->.
  { unfold fMRI.configure_stairCase. by destruct HnS as [-> | ->]. }
  assert (fMRI.configure_exteroStairCase 10 nStaircase true stairType w2
          = (Ok (Some esc), w3)) as ->.
  { unfold fMRI.configure_exteroStairCase. by destruct HnS as [-> | ->]. }
  eexists _, w3, sc, esc. do 3 (split; [done|]).
  split; [|split; [|split]].
  - intros l Hl Hl'. destruct (Hfree1 l Hl) as [_ Hlive].
    destruct (Hfree2 l Hl') as [Hfree _]. by apply Hfree, elem_of_dom.
  - rewrite <-Hheap. intros l [Hl | Hl].
    + by apply Hfree1.
    + destruct (Hfree2 l Hl) as [Hfree _]. intros [obj Hobj]%elem_of_dom.
      apply Hfree, elem_of_dom. eauto.
  - rewrite (Hcfg1 (heap w3)) by done. by rewrite (Hcfg2 (heap w3)).
  - rewrite <-Hheap. eauto.
Qed.

Lemma intero_and_extero_staircases_are_separate_witness :
  ∃ p w' sc esc,
    fMRI.getParameters "sub-01" 1 2 true "psi" w0_busy = (Ok p, w') ∧
    fMRI.stairCase p = Some sc ∧ fMRI.exteroStairCase p = Some esc ∧
    (∀ l, l ∈ addresses sc → l ∉ addresses esc) ∧
    (∀ l, l ∈ addresses sc ∨ l ∈ addresses esc → l ∉ dom (heap w0_busy)) ∧
    fetch (heap w') sc = fetch (heap w') esc ∧
    (∀ l obj, heap w0_busy !! l = Some obj → heap w' !! l = Some obj).
Proof.
  apply (intero_and_extero_staircases_are_separate "sub-01" 1 2 "psi" w0_busy);
    [right; reflexivity | right; reflexivity].
Defined.

(** ** The convergence value on real data *)















(** ** The two panels of [hrd_convergence] *)

Lemma plot_same_length x y fmt ax :
  length x = length y → Figure.plot x y fmt ax = Returns (Figure.draw (Figure.Line x y fmt) ax).
Proof. intros Hlen. unfold Figure.plot. by rewrite Hlen, Nat.eqb_refl. Qed.






(** ** The bars of [plot_confidence] *)

Lemma count_true_fmap {A} (f : A → bool) (l : list A) :
  length (filter (λ b, b = true) (f <$> l)) = length (filter (λ x, f x = true) l).
Proof.
  induction l as [|x l IH]; [done|].
  rewrite fmap_cons. destruct (f x) eqn:Hx.
  - rewrite (filter_cons_True _ true) by done.
    rewrite (filter_cons_True _ x) by done. cbn [length]. f_equal. exact IH.
  - rewrite (filter_cons_False _ false) by done.
    rewrite (filter_cons_False _ x) by (by rewrite Hx). exact IH.
Qed.

Lemma zip_with_fmap_zip {A B C D E} (f : C → D → E) (g : A → C) (h : B → D) a b :
  zip_with f (g <$> a) (h <$> b) = (λ t, f (g t.1) (h t.2)) <$> zip a b.
Proof.
  revert b. induction a as [|x a IH]; intros [|y b]; [done..|].
  rewrite !fmap_cons. cbn [zip_with]. rewrite fmap_cons. f_equal. apply IH.
Qed.

Lemma sum_mask (mask : list bool) :
  mask ≠ [] →
  Builtins.sum mask = Builtins.NpInt (Z.of_nat (length (filter (λ b, b = true) mask))).
Proof. by destruct mask. Qed.

(** The proportion that one bar shows, for arrays of one length. *)
Lemma bar_height (v conf : Z) (accuracy confidence : list float) :
  length confidence = length accuracy → accuracy ≠ [] →
  (let! both := Numpy.logical_and (Numpy.equal accuracy v) (Numpy.equal confidence conf) in
   Builtins.truediv (Builtins.sum both) (Builtins.sum (Numpy.equal accuracy v)))
  = Returns (proportion (trials_rated v conf accuracy confidence) (trials_of v accuracy)).
Proof.
  intros Hlen Hne. unfold Numpy.logical_and, Numpy.equal.
  rewrite !length_fmap, <-Hlen, Nat.eqb_refl. cbn [Figure.and_then].
  rewrite !sum_mask.
  - cbn [Builtins.truediv]. rewrite zip_with_fmap_zip, !count_true_fmap. done.
  - destruct accuracy; done.
  - destruct accuracy, confidence; done.
Qed.

Lemma confidence_bars_returns (accuracy confidence : list float) (conf : Z) ax :
  length confidence = length accuracy → accuracy ≠ [] →
  Plots.confidence_bars confidence accuracy conf ax
  = Returns (ax ++ bars_of accuracy confidence conf)%list.
Proof.
  intros Hlen Hne. unfold Plots.confidence_bars.
  pose proof (bar_height 0 conf accuracy confidence Hlen Hne) as H0.
  pose proof (bar_height 1 conf accuracy confidence Hlen Hne) as H1.
  destruct (Numpy.logical_and (Numpy.equal accuracy 0) _) as [m0|]; [|done].
  cbn [Figure.and_then] in *. rewrite H0. cbn [Figure.and_then].
  destruct (Numpy.logical_and (Numpy.equal accuracy 1) _) as [m1|]; [|done].
  cbn [Figure.and_then] in *. rewrite H1. cbn [Figure.and_then].
  unfold Figure.draw, bars_of. by rewrite <-app_assoc.
Qed.

Lemma foldl_bars (accuracy confidence : list float) (ratings : list Z) ax :
  length confidence = length accuracy → accuracy ≠ [] →
  foldl (λ ax conf, let! ax := ax in Plots.confidence_bars confidence accuracy conf ax)
        (Returns ax) ratings
  = Returns (ax ++ ratings ≫= bars_of accuracy confidence)%list.
Proof.
  intros Hlen Hne. revert ax.
  induction ratings as [|conf ratings IH]; intros ax.
  - simpl. by rewrite app_nil_r.
  - cbn [foldl Figure.and_then]. rewrite confidence_bars_returns by done.
    rewrite IH. by rewrite bind_cons, app_assoc.
Qed.

Lemma length_filter_or {A} (f g : A → bool) (l : list A) :
  (∀ x, f x = true → g x = true → False) →
  length (filter (λ x, f x = true) l) + length (filter (λ x, g x = true) l)
  = length (filter (λ x, f x || g x = true) l).
Proof.
  intros Hexcl. induction l as [|x l IH]; [done|].
  specialize (Hexcl x).
  destruct (f x) eqn:Hf; destruct (g x) eqn:Hg.
  - by destruct Hexcl.
  - rewrite (filter_cons_True (λ x, f x = true) x) by done.
    rewrite (filter_cons_False (λ x, g x = true) x) by (by rewrite Hg).
    rewrite (filter_cons_True (λ x, f x || g x = true) x) by (by rewrite Hf).
    cbn [length]. rewrite Nat.add_succ_l. f_equal. exact IH.
  - rewrite (filter_cons_False (λ x, f x = true) x) by (by rewrite Hf).
    rewrite (filter_cons_True (λ x, g x = true) x) by done.
    rewrite (filter_cons_True (λ x, f x || g x = true) x) by (by rewrite Hf, Hg).
    cbn [length]. rewrite Nat.add_succ_r. f_equal. exact IH.
  - rewrite (filter_cons_False (λ x, f x = true) x) by (by rewrite Hf).
    rewrite (filter_cons_False (λ x, g x = true) x) by (by rewrite Hg).
    rewrite (filter_cons_False (λ x, f x || g x = true) x) by (by rewrite Hf, Hg).
    exact IH.
Qed.

Lemma length_filter_false {A} (f : A → bool) (l : list A) :
  (∀ x, f x = false) → length (filter (λ x, f x = true) l) = 0.
Proof.
  intros Hf. induction l as [|x l IH]; [done|].
  rewrite (filter_cons_False (λ x, f x = true) x) by (by rewrite Hf). exact IH.
Qed.

(** A float equals at most one integer. *)
Lemma eqb_integer x (a b : Z) :
  Float.eqb x (Fin (inject_Z a)) = true → Float.eqb x (Fin (inject_Z b)) = true → a = b.
Proof.
  destruct x as [q| | |]; try done. unfold Float.eqb. simpl.
  intros [H1 H2]%andb_prop [H3 H4]%andb_prop.
  apply Qle_bool_iff in H1, H2, H3, H4.
  assert (inject_Z a == inject_Z b)%Q as Heq by lra.
  unfold Qeq in Heq. simpl in Heq. lia.
Qed.

(** The trials counted for the ratings of a list without repetition are
    the trials whose rating is in the list. *)
Lemma ratings_partition (v : Z) (accuracy confidence : list float) (ratings : list Z) :
  NoDup ratings →
  sum_list ((λ conf, trials_rated v conf accuracy confidence) <$> ratings)
  = length (filter (λ t, Float.eqb t.1 (Fin (inject_Z v))
                         && existsb (λ conf, Float.eqb t.2 (Fin (inject_Z conf))) ratings
                         = true)
                   (zip accuracy confidence)).
Proof.
  induction 1 as [|conf ratings Hnotin Hnodup IH].
  - simpl. symmetry. apply length_filter_false. intros t. apply andb_false_r.
  - rewrite fmap_cons. cbn [sum_list sum_list_with]. rewrite IH. unfold trials_rated.
    etrans;
      [apply (length_filter_or
                (λ t, Float.eqb t.1 (Fin (inject_Z v)) && Float.eqb t.2 (Fin (inject_Z conf)))
                (λ t, Float.eqb t.1 (Fin (inject_Z v))
                      && existsb (λ conf, Float.eqb t.2 (Fin (inject_Z conf))) ratings))|].
    + intros t [_ H1]%andb_prop [_ H2]%andb_prop.
      apply existsb_exists in H2 as (conf' & Hin & H2).
      apply (eqb_integer _ _ _ H1) in H2 as <-.
      apply Hnotin. by apply list_elem_of_In.
    + apply (f_equal length), list_filter_iff. intros t. cbn [existsb].
      destruct (Float.eqb t.1 _), (Float.eqb t.2 (Fin (inject_Z conf))),
        (existsb _ ratings); simpl; intuition congruence.
Qed.

Lemma plot_confidence_returns (confidence accuracy : list float) :
  length confidence = length accuracy → accuracy ≠ [] →
  Plots.plot_confidence confidence accuracy
  = Returns (seqZ 1 7 ≫= bars_of accuracy confidence).
Proof. intros Hlen Hne. unfold Plots.plot_confidence. by rewrite foldl_bars. Qed.

(** For arrays of one length that are not empty, [plot_confidence] returns a
    figure with fourteen bars: for each rating from 1 to 7 a red bar, left of
    the rating, whose height is the number of trials with accuracy 0 and that
    rating divided by the number of trials with accuracy 0, and a green bar,
    right of the rating, with the same quotient for accuracy 1. For each
    accuracy the seven numerators add up to the number of trials with that
    accuracy whose rating is one of 1, ..., 7. *)
Theorem confidence_bars_are_proportions (confidence accuracy : list float) :
  length confidence = length accuracy → accuracy ≠ [] →
  Plots.plot_confidence confidence accuracy
  = Returns (seqZ 1 7 ≫= bars_of accuracy confidence) ∧
  ∀ v, sum_list ((λ conf, trials_rated v conf accuracy confidence) <$> seqZ 1 7)
       = length (filter (λ t, Float.eqb t.1 (Fin (inject_Z v)) && on_scale t.2 = true)
                        (zip accuracy confidence)).
Proof.
  intros Hlen Hne. split.
  - by apply plot_confidence_returns.
  - intros v. apply ratings_partition, NoDup_seqZ.
Qed.

Lemma confidence_bars_are_proportions_witness :
  Plots.plot_confidence [Fin 7; Fin 2; Fin 7] [Fin 0; Fin 1; Fin 0]
  = Returns (seqZ 1 7 ≫= bars_of [Fin 0; Fin 1; Fin 0] [Fin 7; Fin 2; Fin 7]) ∧
  ∀ v, sum_list ((λ conf, trials_rated v conf [Fin 0; Fin 1; Fin 0] [Fin 7; Fin 2; Fin 7])
                   <$> seqZ 1 7)
       = length (filter (λ t, Float.eqb t.1 (Fin (inject_Z v)) && on_scale t.2 = true)
                        (zip [Fin 0; Fin 1; Fin 0] [Fin 7; Fin 2; Fin 7])).
Proof.
  apply (confidence_bars_are_proportions [Fin 7; Fin 2; Fin 7] [Fin 0; Fin 1; Fin 0]);
    [reflexivity | discriminate].
Defined.

Lemma heights_bars_of color (accuracy confidence : list float) (ratings : list Z) :
  Plots.heights color (ratings ≫= bars_of accuracy confidence)
  = ratings ≫= (λ conf, Plots.heights color (bars_of accuracy confidence conf)).
Proof.
  unfold Plots.heights.
  induction ratings as [|conf ratings IH]; [done|].
  by rewrite !bind_cons, omap_app, IH.
Qed.

Lemma length_filter_none {A} (f : A → bool) (l : list A) :
  Forall (λ x, f x = false) l → length (filter (λ x, f x = true) l) = 0.
Proof.
  induction 1 as [|x l Hx _ IH]; [done|].
  rewrite (filter_cons_False (λ x, f x = true) x) by (by rewrite Hx). exact IH.
Qed.

(** When no trial has accuracy 0 the call still returns, for arrays of one
    length that are not empty, and each of the seven red bars has a NaN
    height. *)
Theorem error_bars_are_nan_without_errors (confidence accuracy : list float) :
  length confidence = length accuracy → accuracy ≠ [] →
  Forall (λ a, Float.eqb a (Fin (inject_Z 0)) = false) accuracy →
  ∃ ax, Plots.plot_confidence confidence accuracy = Returns ax ∧
        Plots.heights "r" ax = replicate 7 NaN.
Proof.
  intros Hlen Hne Hnone.
  rewrite plot_confidence_returns by done.
  eexists. split; [done|].
  assert (∀ conf, Plots.heights "r" (bars_of accuracy confidence conf) = [NaN]) as Hbar.
  { intros conf. unfold bars_of, Plots.heights. cbn [omap String.eqb Ascii.eqb Bool.eqb].
    unfold trials_of, trials_rated.
    rewrite (length_filter_none (λ a, Float.eqb a (Fin (inject_Z 0)))) by done.
    rewrite (length_filter_none
               (λ t : float * float, Float.eqb t.1 (Fin (inject_Z 0))
                                     && Float.eqb t.2 (Fin (inject_Z conf)))); [done|].
    apply Forall_forall. intros [a c] Hin. apply elem_of_zip_l in Hin.
    rewrite Forall_forall in Hnone. simpl. by rewrite (Hnone a Hin). }
  rewrite heights_bars_of.
  assert (seqZ 1 7 = [1; 2; 3; 4; 5; 6; 7]%Z) as -> by reflexivity.
  rewrite !bind_cons, !Hbar. reflexivity.
Qed.

Lemma error_bars_are_nan_without_errors_witness :
  ∃ ax, Plots.plot_confidence [Fin 7; Fin 2] [Fin 1; Fin 1] = Returns ax ∧
        Plots.heights "r" ax = replicate 7 NaN.
Proof.
  apply (error_bars_are_nan_without_errors [Fin 7; Fin 2] [Fin 1; Fin 1]);
    [reflexivity | discriminate | by repeat constructor].
Defined.

Lemma foldl_raises {A B} (F : B → A → outcome A) e (l : list B) :
  foldl (λ ax conf, let! ax := ax in F conf ax) (Raises e) l = Raises e.
Proof. induction l as [|x l IH]; [done|]. exact IH. Qed.

(** Without any trial the call raises: a [ZeroDivisionError] when the
    ratings are empty too, or hold one value, and a [ValueError] when there
    are two ratings or more. *)
Theorem plot_confidence_raises_without_trials (confidence : list float) :
  Plots.plot_confidence confidence []
  = Raises (if (length confidence <=? 1)%nat then Figure.ZeroDivisionError
            else Figure.ValueError).
Proof. destruct confidence as [|c1 [|c2 confidence]]; reflexivity. Qed.

(** Arrays of two different lengths, neither of which is 1, raise a
    [ValueError]. *)
Theorem plot_confidence_raises_on_lengths (confidence accuracy : list float) :
  length confidence ≠ length accuracy →
  length confidence ≠ 1 → length accuracy ≠ 1 →
  Plots.plot_confidence confidence accuracy = Raises Figure.ValueError.
Proof.
  intros Hlen Hc Ha.
  assert (Numpy.logical_and (Numpy.equal accuracy 0) (Numpy.equal confidence 1)
          = Raises Figure.ValueError) as Hand.
  { unfold Numpy.logical_and, Numpy.equal. rewrite !length_fmap.
    destruct (Nat.eqb_spec (length accuracy) (length confidence)) as [E|_]; [by destruct Hlen|].
    destruct accuracy as [|a1 [|a2 accuracy]]; [| by destruct Ha |];
      (destruct confidence as [|c1 [|c2 confidence]]; [| by destruct Hc |]); done. }
  unfold Plots.plot_confidence. rewrite seqZ_cons by lia.
  cbn [foldl Figure.and_then]. unfold Plots.confidence_bars at 2.
  rewrite Hand. cbn [Figure.and_then]. apply foldl_raises.
Qed.

Lemma plot_confidence_raises_on_lengths_witness :
  Plots.plot_confidence [Fin 7; Fin 2; Fin 1] [Fin 1; Fin 0] = Raises Figure.ValueError.
Proof.
  apply (plot_confidence_raises_on_lengths [Fin 7; Fin 2; Fin 1] [Fin 1; Fin 0]);
    simpl; lia.
Defined.

(** ** [plot_events]: the channels after the call *)

Lemma equals_one_mask (c : Plots.Channel) : Plots.equals_one c = Plots.Mask (is_one c).
Proof. by destruct c. Qed.

Lemma length_is_one (c : Plots.Channel) : length (is_one c) = samples_of c.
Proof. destruct c; [apply length_fmap | done]. Qed.

Lemma dict_get_app (key : string) (c : Plots.Channel) done_ todo :
  key ∉ (fst <$> done_) →
  Plots.dict_get key (done_ ++ (key, c) :: todo)%list = Some c.
Proof.
  induction done_ as [|[k v] done_ IH]; intros Hnotin.
  - simpl. by rewrite String.eqb_refl.
  - rewrite fmap_cons, not_elem_of_cons in Hnotin. destruct Hnotin as [Hne Hnotin].
    simpl. destruct (String.eqb_spec k key) as [->|_]; [done|]. by apply IH.
Qed.

Lemma dict_set_app (key : string) (c v : Plots.Channel) done_ todo :
  key ∉ (fst <$> done_) →
  Plots.dict_set key v (done_ ++ (key, c) :: todo)%list = (done_ ++ (key, v) :: todo)%list.
Proof.
  induction done_ as [|[k v'] done_ IH]; intros Hnotin.
  - simpl. by rewrite String.eqb_refl.
  - rewrite fmap_cons, not_elem_of_cons in Hnotin. destruct Hnotin as [Hne Hnotin].
    simpl. destruct (String.eqb_spec k key) as [->|_]; [done|]. by rewrite IH.
Qed.

Lemma fill_between_levels (x : list float) (lo hi : float) (m : list bool) ax :
  length m = length x →
  Figure.fill_between x (Figure.Scalar lo) (Figure.Scalar hi) (Some m) ax
  = Returns (Figure.draw (Figure.Band x (Figure.Scalar lo) (Figure.Scalar hi) (Some m)) ax).
Proof.
  intros Hlen. unfold Figure.fill_between. rewrite Hlen, Nat.eqb_refl.
  change (omap Figure.size [Figure.Scalar lo; Figure.Scalar hi]) with (@nil nat).
  cbn [andb]. unfold Figure.broadcast.
  destruct (decide (length x = 1)) as [E|E].
  - by rewrite filter_cons_False by (by intros []).
  - by rewrite filter_cons_True by done.
Qed.

(** The loop of [plot_events], started after the channels [done_]. *)
Lemma plot_events_loop (x : list float) todo : ∀ done_ ax,
  NoDup (fst <$> (done_ ++ todo)%list) →
  Forall (λ kv, samples_of kv.2 = length x) todo →
  foldl (Plots.plot_event x) ((done_ ++ todo)%list, Returns ax)
        (zip (seq (length done_) (length todo)) (fst <$> todo))
  = ((done_ ++ ((λ kv, (kv.1, Plots.Mask (is_one kv.2))) <$> todo))%list,
     Returns (ax ++ imap (λ i kv, band_of x (length done_ + i) kv.2) todo)%list).
Proof.
  induction todo as [|[key c] todo IH]; intros done_ ax Hnodup Hsize.
  - simpl. by rewrite !app_nil_r.
  - apply Forall_cons in Hsize as [Hc Hsize]. simpl in Hc.
    assert (key ∉ (fst <$> done_)) as Hnotin.
    { rewrite fmap_app, fmap_cons in Hnodup.
      apply NoDup_app in Hnodup as (_ & Hdisj & _).
      intros Hin. apply (Hdisj key Hin). left. }
    cbn [length seq fmap list_fmap zip zip_with foldl fst]. unfold Plots.plot_event at 2.
    rewrite dict_get_app by done. rewrite dict_set_app by done.
    rewrite dict_get_app by done. rewrite equals_one_mask.
    rewrite fill_between_levels by (by rewrite length_is_one).
    replace (done_ ++ (key, Plots.Mask (is_one c)) :: todo)%list
      with ((done_ ++ [(key, Plots.Mask (is_one c))]) ++ todo)%list
      by (by rewrite <-app_assoc).
    replace (S (length done_)) with (length (done_ ++ [(key, Plots.Mask (is_one c))])%list)
      by (rewrite length_app; simpl; lia).
    rewrite IH.
    + rewrite <-!app_assoc. cbn [app]. f_equal. f_equal.
      unfold Figure.draw. rewrite <-app_assoc. f_equal. cbn [app imap].
      rewrite Nat.add_0_r. cbn [snd]. f_equal.
      apply imap_ext. intros i kv _. unfold compose. rewrite length_app. cbn [length].
      f_equal. lia.
    + rewrite <-app_assoc. cbn [app].
      rewrite fmap_app, fmap_cons in *. done.
    + done.
Qed.

(** What [plot_events] gives for a recording whose channels have distinct
    names and one sample per time. *)
Lemma plot_events_unfold (oximeter : Plots.Oximeter) ax :
  one_sample_per_time oximeter →
  Plots.plot_events oximeter ax
  = (Returns (ax ++ imap (λ i kv, band_of (Plots.times oximeter) i kv.2)
                         (Plots.channels oximeter)
                 ++ [Figure.YTicks ((λ i, inject_Z (Z.of_nat i) + (1 # 2))%Q
                                      <$> seq 0 (length (Plots.channels oximeter)));
                     Figure.YTickLabels (fst <$> Plots.channels oximeter)])%list,
     Plots.with_channels ((λ kv, (kv.1, Plots.Mask (is_one kv.2)))
                            <$> Plots.channels oximeter) oximeter).
Proof.
  intros [Hnodup Hsize]. unfold Plots.plot_events.
  pose proof (plot_events_loop (Plots.times oximeter) (Plots.channels oximeter) [] ax
                Hnodup Hsize) as Hloop.
  cbn [app length] in Hloop. rewrite Hloop. cbn [Figure.and_then].
  rewrite length_fmap, <-list_fmap_compose. unfold Figure.draw.
  rewrite <-!app_assoc. done.
Qed.

(** For a recording whose channels have distinct names and one sample per
    time, [plot_events] returns, and it leaves the recording changed: every
    channel is then an array of booleans that tells where the channel was 1,
    under the same name and at the same place. The band drawn for the channel
    at place [i] lies between [i] and [i + 1] and is filled where the channel
    was 1; the labels of the ticks are the names of the channels in their
    order. The other fields of the recording are as before. *)
Theorem plot_events_rewrites_channels (oximeter : Plots.Oximeter) (ax : Figure.Axes) :
  one_sample_per_time oximeter →
  ∃ ax' oximeter',
    Plots.plot_events oximeter ax = (Returns ax', oximeter') ∧
    fst <$> Plots.channels oximeter' = fst <$> Plots.channels oximeter ∧
    (∀ i name c, Plots.channels oximeter !! i = Some (name, c) →
       Plots.channels oximeter' !! i = Some (name, Plots.Mask (is_one c)) ∧
       band_of (Plots.times oximeter) i c ∈ ax') ∧
    Figure.YTickLabels (fst <$> Plots.channels oximeter) ∈ ax' ∧
    Plots.times oximeter' = Plots.times oximeter ∧
    Plots.recording oximeter' = Plots.recording oximeter ∧
    Plots.threshold oximeter' = Plots.threshold oximeter ∧
    Plots.peaks oximeter' = Plots.peaks oximeter ∧
    Plots.instant_rr oximeter' = Plots.instant_rr oximeter.
Proof.
  intros Hok. rewrite plot_events_unfold by done.
  eexists _, _. split; [done|]. cbn.
  split; [by rewrite <-list_fmap_compose|].
  split; [|split; [|done]].
  - intros i name c Hi. split.
    + by rewrite list_lookup_fmap, Hi.
    + apply elem_of_app. right. apply elem_of_app. left.
      apply list_elem_of_lookup. exists i. by rewrite list_lookup_imap, Hi.
  - rewrite !elem_of_app. right. right. right. left.
Qed.

Lemma plot_events_rewrites_channels_witness :
  ∃ ax' oximeter',
    Plots.plot_events two_channels [] = (Returns ax', oximeter') ∧
    fst <$> Plots.channels oximeter' = fst <$> Plots.channels two_channels ∧
    (∀ i name c, Plots.channels two_channels !! i = Some (name, c) →
       Plots.channels oximeter' !! i = Some (name, Plots.Mask (is_one c)) ∧
       band_of (Plots.times two_channels) i c ∈ ax') ∧
    Figure.YTickLabels (fst <$> Plots.channels two_channels) ∈ ax' ∧
    Plots.times oximeter' = Plots.times two_channels ∧
    Plots.recording oximeter' = Plots.recording two_channels ∧
    Plots.threshold oximeter' = Plots.threshold two_channels ∧
    Plots.peaks oximeter' = Plots.peaks two_channels ∧
    Plots.instant_rr oximeter' = Plots.instant_rr two_channels.
Proof.
  apply (plot_events_rewrites_channels two_channels []).
  split; [|by repeat constructor].
  apply NoDup_ListNoDup. simpl. repeat constructor; simpl; intuition discriminate.
Defined.

Lemma one_sample_per_time_after (oximeter : Plots.Oximeter) :
  one_sample_per_time oximeter →
  one_sample_per_time
    (Plots.with_channels ((λ kv, (kv.1, Plots.Mask (is_one kv.2)))
                            <$> Plots.channels oximeter) oximeter).
Proof.
  intros [Hnodup Hsize]. split; simpl.
  - by rewrite <-list_fmap_compose.
  - apply Forall_fmap. eapply Forall_impl; [exact Hsize|].
    intros [k c] Hc. simpl in *. by rewrite length_is_one.
Qed.

(** Drawing the events of a recording a second time, on any axes, changes
    the recording no more, and draws there what the first call would have
    drawn. *)
Theorem plot_events_twice (oximeter : Plots.Oximeter) (ax ax' : Figure.Axes) :
  one_sample_per_time oximeter →
  Plots.plot_events (Plots.plot_events oximeter ax).2 ax'
  = ((Plots.plot_events oximeter ax').1, (Plots.plot_events oximeter ax).2).
Proof.
  intros Hok. rewrite !(plot_events_unfold oximeter) by done. cbn [fst snd].
  rewrite plot_events_unfold by (by apply one_sample_per_time_after).
  cbn [Plots.with_channels Plots.times Plots.channels Plots.recording Plots.threshold
       Plots.peaks Plots.instant_rr].
  rewrite length_fmap, <-!list_fmap_compose.
  do 4 f_equal. rewrite imap_fmap. apply imap_ext. by intros i [k c] _.
Qed.

Lemma plot_events_twice_witness :
  Plots.plot_events (Plots.plot_events two_channels []).2 []
  = ((Plots.plot_events two_channels []).1, (Plots.plot_events two_channels []).2).
Proof.
  apply (plot_events_twice two_channels [] []).
  split; [|by repeat constructor].
  apply NoDup_ListNoDup. simpl. repeat constructor; simpl; intuition discriminate.
Defined.

(** ** [plot_oximeter]: when it returns, and what it draws *)

Lemma where_offset (mask : list bool) (start : nat) :
  fst <$> filter (λ im, im.2 = true) (zip (seq start (length mask)) mask)
  = (λ i, start + i) <$> Numpy.where_ mask.
Proof.
  unfold Numpy.where_. revert start.
  induction mask as [|b mask IH]; intros start; [done|].
  cbn [length seq zip zip_with].
  destruct b.
  - rewrite !(filter_cons_True (λ im : nat * bool, im.2 = true)) by done.
    rewrite !fmap_cons. rewrite (IH (S start)), (IH 1).
    rewrite <-!list_fmap_compose. cbn [fst]. f_equal; [lia|].
    apply list_fmap_ext. intros _ [i b] _. simpl. lia.
  - rewrite !(filter_cons_False (λ im : nat * bool, im.2 = true)) by done.
    rewrite (IH (S start)), (IH 1).
    rewrite <-!list_fmap_compose. apply list_fmap_ext. intros _ [i b] _. simpl. lia.
Qed.

Lemma where_cons (b : bool) (mask : list bool) :
  Numpy.where_ (b :: mask) = ((if b then [0] else []) ++ (S <$> Numpy.where_ mask))%list.
Proof.
  unfold Numpy.where_ at 1. cbn [length seq zip zip_with].
  pose proof (where_offset mask 1) as Hoff.
  destruct b.
  - rewrite (filter_cons_True (λ im : nat * bool, im.2 = true)) by done.
    rewrite fmap_cons, Hoff. done.
  - rewrite (filter_cons_False (λ im : nat * bool, im.2 = true)) by done.
    rewrite Hoff. done.
Qed.

(** The positions that [np.where] gives are those of the true entries. *)
Lemma elem_of_where (mask : list bool) (i : nat) :
  i ∈ Numpy.where_ mask ↔ mask !! i = Some true.
Proof.
  revert i. induction mask as [|b mask IH]; intros i.
  - unfold Numpy.where_. simpl. split; [by intros ?%elem_of_nil | done].
  - rewrite where_cons, elem_of_app, list_elem_of_fmap.
    destruct i as [|i]; simpl.
    + split.
      * intros [Hin | (j & [=] & _)]. destruct b; [done|]. by apply elem_of_nil in Hin.
      * intros [= ->]. left. left.
    + rewrite <-IH. split.
      * intros [Hin | (j & [= ->] & Hj)]; [|done].
        destruct b; [|by apply elem_of_nil in Hin].
        by apply list_elem_of_singleton in Hin.
      * intros Hin. right. by exists i.
Qed.

Lemma take_returns {A} (a : list A) (idx : list nat) :
  Forall (λ i, i < length a) idx →
  ∃ r, Numpy.take a idx = Returns r ∧ length r = length idx.
Proof.
  intros Hidx. unfold Numpy.take.
  destruct (mapM (λ i, a !! i) idx) as [r|] eqn:Hr.
  - exists r. split; [done|]. symmetry. by eapply length_mapM.
  - exfalso. apply mapM_None in Hr. apply Exists_exists in Hr as (i & Hin & Hnone).
    rewrite Forall_forall in Hidx. apply Hidx in Hin.
    apply lookup_ge_None in Hnone. lia.
Qed.

Lemma take_raises {A} (a : list A) (idx : list nat) (i : nat) :
  i ∈ idx → (length a ≤ i)%nat → Numpy.take a idx = Raises Figure.IndexError.
Proof.
  intros Hin Hge. unfold Numpy.take.
  destruct (mapM (λ i, a !! i) idx) as [r|] eqn:Hr; [|done].
  exfalso. rewrite mapM_Some in Hr.
  apply list_elem_of_lookup in Hin as [j Hj].
  destruct (Forall2_lookup_l _ _ _ _ _ Hr Hj) as (y & _ & Hy).
  apply lookup_lt_Some in Hy. lia.
Qed.

(** Indexing two arrays with the positions of a mask pairs up the entries at
    the true positions. *)
Lemma take_where {A B} (mask : list bool) (a : list A) (b : list B) x y :
  Numpy.take a (Numpy.where_ mask) = Returns x →
  Numpy.take b (Numpy.where_ mask) = Returns y →
  zip x y = snd <$> filter (λ p, p.1 = true) (zip mask (zip a b)).
Proof.
  revert a b x y. induction mask as [|m mask IH]; intros a b x y.
  - unfold Numpy.where_, Numpy.take. simpl. by intros [= <-] [= <-].
  - rewrite where_cons. unfold Numpy.take.
    destruct (mapM (λ i, a !! i) _) as [x'|] eqn:Hx; [|done].
    destruct (mapM (λ i, b !! i) _) as [y'|] eqn:Hy; [|done].
    intros [= ->] [= ->].
    rewrite mapM_Some in Hx. rewrite mapM_Some in Hy.
    apply Forall2_app_inv_l in Hx as (x1 & x2 & Hx1 & Hx2 & ->).
    apply Forall2_app_inv_l in Hy as (y1 & y2 & Hy1 & Hy2 & ->).
    rewrite Forall2_fmap_l in Hx2, Hy2.
    destruct a as [|a0 a], b as [|b0 b].
    + destruct m; [by inversion Hx1|]. inversion Hx1; inversion Hy1; subst.
      assert (x2 = []) as ->.
      { destruct Hx2 as [|? ? ? ? Hbad]; [done | done]. }
      done.
    + destruct m; [by inversion Hx1|]. inversion Hx1; inversion Hy1; subst.
      assert (x2 = []) as ->.
      { destruct Hx2 as [|? ? ? ? Hbad]; [done | done]. }
      done.
    + destruct m; [by inversion Hy1|]. inversion Hx1; inversion Hy1; subst.
      assert (y2 = []) as ->.
      { destruct Hy2 as [|? ? ? ? Hbad]; [done | done]. }
      simpl. by rewrite zip_with_nil_r.
    + assert (zip x2 y2 = snd <$> filter (λ p, p.1 = true) (zip mask (zip a b))) as Htail.
      { apply IH; unfold Numpy.take.
        - by assert (mapM (λ i, a !! i) (Numpy.where_ mask) = Some x2) as ->
            by (apply mapM_Some; exact Hx2).
        - by assert (mapM (λ i, b !! i) (Numpy.where_ mask) = Some y2) as ->
            by (apply mapM_Some; exact Hy2). }
      destruct m.
      * inversion Hx1 as [|? ? ? ? Ha Hx1']; inversion Hy1 as [|? ? ? ? Hb Hy1']; subst.
        inversion Hx1'; inversion Hy1'; subst. simpl in Ha, Hb.
        injection Ha as <-. injection Hb as <-.
        cbn [zip zip_with app].
        rewrite (filter_cons_True (λ p : bool * (A * B), p.1 = true)) by done.
        rewrite fmap_cons. cbn [snd]. f_equal. exact Htail.
      * inversion Hx1; inversion Hy1; subst.
        cbn [zip zip_with app].
        rewrite (filter_cons_False (λ p : bool * (A * B), p.1 = true)) by done.
        exact Htail.
Qed.

Lemma fill_between_curve (x y : list float) (lowest : float) ax :
  length x = length y →
  Figure.fill_between x (Figure.Curve y) (Figure.Scalar lowest) None ax
  = Returns (Figure.draw (Figure.Band x (Figure.Curve y) (Figure.Scalar lowest) None) ax).
Proof.
  intros Hlen. unfold Figure.fill_between.
  change (omap Figure.size [Figure.Curve y; Figure.Scalar lowest]) with [length y].
  rewrite <-Hlen. cbn [andb]. unfold Figure.broadcast.
  destruct (decide (length x = 1)) as [E|E].
  - by rewrite !filter_cons_False by (by intros []).
  - rewrite !filter_cons_True by done. simpl. by rewrite Nat.eqb_refl.
Qed.

Lemma plot_raises (x y : list float) fmt ax :
  length x ≠ length y → Figure.plot x y fmt ax = Raises Figure.ValueError.
Proof.
  intros Hlen. unfold Figure.plot.
  by destruct (Nat.eqb_spec (length x) (length y)).
Qed.

(** [plot_oximeter] returns exactly when the thresholds and the recording
    have one sample per time, the recording is not empty, and every detected
    peak lies within the recording. It then draws, after what the axes held:
    the threshold line, a band from the thresholds down to the lowest sample,
    the recording, a band from the recording down to the lowest sample, and
    one red marker at each detected peak, at the time and the level of the
    sample. *)
Theorem plot_oximeter_returns (oximeter : Plots.Oximeter) (ax : Figure.Axes) :
  (length (Plots.threshold oximeter) = length (Plots.times oximeter) ∧
   length (Plots.recording oximeter) = length (Plots.times oximeter) ∧
   Plots.recording oximeter ≠ [] ∧
   ∀ i, Plots.peaks oximeter !! i = Some true → i < length (Plots.times oximeter))
  ↔
  ∃ lowest x y,
    Numpy.amin (Plots.recording oximeter) = Returns lowest ∧
    zip x y = peak_samples oximeter ∧
    Plots.plot_oximeter oximeter ax
    = Returns (ax ++ [ Figure.Line (Plots.times oximeter) (Plots.threshold oximeter) "";
                       Figure.Band (Plots.times oximeter)
                                   (Figure.Curve (Plots.threshold oximeter))
                                   (Figure.Scalar lowest) None;
                       Figure.Line (Plots.times oximeter) (Plots.recording oximeter) "";
                       Figure.Band (Plots.times oximeter)
                                   (Figure.Curve (Plots.recording oximeter))
                                   (Figure.Scalar lowest) None;
                       Figure.Line x y "ro" ])%list.
Proof.
  unfold Plots.plot_oximeter. split.
  - intros (Hth & Hrec & Hne & Hpeaks).
    rewrite plot_same_length by done. cbn [Figure.and_then].
    destruct (Numpy.amin (Plots.recording oximeter)) as [lowest|] eqn:Hmin;
      [|by destruct (Plots.recording oximeter)].
    cbn [Figure.and_then].
    rewrite fill_between_curve by done. cbn [Figure.and_then].
    rewrite plot_same_length by done. cbn [Figure.and_then].
    rewrite fill_between_curve by done. cbn [Figure.and_then].
    assert (Forall (λ i, i < length (Plots.times oximeter))
                   (Numpy.where_ (Plots.peaks oximeter))) as Hidx.
    { apply Forall_forall. intros i Hi. by apply Hpeaks, elem_of_where. }
    destruct (take_returns (Plots.times oximeter) _ Hidx) as (x & Hx & Hlx).
    rewrite <-Hrec in Hidx.
    destruct (take_returns (Plots.recording oximeter) _ Hidx) as (y & Hy & Hly).
    rewrite Hx, Hy. cbn [Figure.and_then].
    rewrite plot_same_length by congruence.
    exists lowest, x, y. split; [done|]. split; [by eapply take_where|].
    unfold Figure.draw. by rewrite <-!app_assoc.
  - intros (lowest & x & y & Hmin & _ & Hplot).
    destruct (decide (length (Plots.times oximeter) = length (Plots.threshold oximeter)))
      as [Hth|Hth]; [|by rewrite plot_raises in Hplot].
    rewrite plot_same_length in Hplot by done. cbn [Figure.and_then] in Hplot.
    rewrite Hmin in Hplot. cbn [Figure.and_then] in Hplot.
    rewrite fill_between_curve in Hplot by done. cbn [Figure.and_then] in Hplot.
    destruct (decide (length (Plots.times oximeter) = length (Plots.recording oximeter)))
      as [Hrec|Hrec]; [|by rewrite plot_raises in Hplot].
    split; [done|]. split; [done|].
    split; [intros Hnil; by rewrite Hnil in Hmin|].
    intros i Hi. apply elem_of_where in Hi.
    destruct (decide (i < length (Plots.times oximeter))) as [|Hge]; [done|].
    rewrite plot_same_length in Hplot by done. cbn [Figure.and_then] in Hplot.
    rewrite fill_between_curve in Hplot by done. cbn [Figure.and_then] in Hplot.
    rewrite (take_raises (Plots.times oximeter) _ i) in Hplot by (done || lia).
    done.
Qed.

Lemma leb_trans (a b c : float) :
  Float.leb a b = true → Float.leb b c = true → Float.leb a c = true.
Proof.
  destruct a as [qa| | |], b as [qb| | |], c as [qc| | |]; try done. simpl.
  rewrite !Qle_bool_iff. apply Qle_trans.
Qed.

Lemma leb_total (a b : float) :
  Float.is_nan a = false → Float.is_nan b = false →
  Float.leb a b = false → Float.leb b a = true.
Proof.
  destruct a as [qa| | |], b as [qb| | |]; try done. simpl. intros _ _ Hab.
  apply Qle_bool_iff. apply Qlt_le_weak, Qnot_le_lt. intros Hle.
  apply Qle_bool_iff in Hle. congruence.
Qed.

Lemma leb_refl (a : float) : Float.is_nan a = false → Float.leb a a = true.
Proof. destruct a as [qa| | |]; try done. intros _. apply Qle_bool_iff, Qle_refl. Qed.

(** The running minimum of [min]: it is one of the values met, and below
    all of them. *)
Lemma running_minimum (rest : list float) : ∀ m0,
  Float.is_nan m0 = false → Forall (λ y, Float.is_nan y = false) rest →
  let m := foldl (λ m y, if Float.leb y m then y else m) m0 rest in
  Float.is_nan m = false ∧ (m = m0 ∨ m ∈ rest) ∧
  Float.leb m m0 = true ∧ Forall (λ y, Float.leb m y = true) rest.
Proof.
  induction rest as [|y rest IH]; intros m0 Hm0 Hrest; cbn zeta.
  - simpl. split; [done|]. split; [by left|]. split; [by apply leb_refl | done].
  - apply Forall_cons in Hrest as [Hy Hrest]. cbn [foldl].
    destruct (Float.leb y m0) eqn:Hle.
    + destruct (IH y Hy Hrest) as (Hnan & Hin & Hlow & Hall).
      split; [done|]. split; [|split].
      * right. destruct Hin as [-> | Hin]; [left | by right].
      * by eapply leb_trans.
      * by constructor.
    + destruct (IH m0 Hm0 Hrest) as (Hnan & Hin & Hlow & Hall).
      split; [done|]. split; [|split; [done|]].
      * destruct Hin as [-> | Hin]; [by left | right; by right].
      * constructor; [|done]. eapply leb_trans; [exact Hlow|]. by apply leb_total.
Qed.

(** The level that closes the two bands of [plot_oximeter] from below,
    [recording.min()]: when no sample is NaN it is one of the samples and no
    sample is below it; as soon as one sample is NaN it is NaN. *)
Theorem baseline_is_lowest_sample (recording : list float) (lowest : float) :
  Numpy.amin recording = Returns lowest →
  if existsb Float.is_nan recording then lowest = NaN
  else lowest ∈ recording ∧ Forall (λ y, Float.leb lowest y = true) recording.
Proof.
  destruct recording as [|x rest]; [done|]. unfold Numpy.amin.
  destruct (existsb Float.is_nan (x :: rest)) eqn:Hnan; intros [= <-]; [done|].
  cbn [existsb] in Hnan. apply orb_false_elim in Hnan as [Hx Hrest].
  assert (Forall (λ y, Float.is_nan y = false) rest) as Hall.
  { apply Forall_forall. intros y Hy.
    destruct (Float.is_nan y) eqn:Hy'; [|done].
    assert (existsb Float.is_nan rest = true) as Hex; [|congruence].
    apply existsb_exists. exists y. split; [by apply list_elem_of_In | done]. }
  destruct (running_minimum rest x Hx Hall) as (_ & Hin & Hlow & Hbelow).
  split.
  - destruct Hin as [-> | Hin]; [left | by right].
  - by constructor.
Qed.

Lemma baseline_is_lowest_sample_witness :
  Fin 90 ∈ Plots.recording two_channels ∧
  Forall (λ y, Float.leb (Fin 90) y = true) (Plots.recording two_channels).
Proof.
  apply (baseline_is_lowest_sample (Plots.recording two_channels) (Fin 90)).
  reflexivity.
Defined.
